(** * Progression and access control of the puzzle API

    A shallow embedding of the player-facing routes of the API
    ([routes/puzzles.ts], [routes/progress.ts]) over the Mongoose models
    [Puzzle], [UserProgress] and [User], followed by the properties of the
    unlock policy, the free-tier daily quota, the completion rule and the
    progress store.

    Conventions of the embedding:
    - an [ObjectId] is its [toString()] rendering; identifiers are assumed
      well formed, so the cast errors of Mongoose (the [catch] branch that
      answers 500) do not appear;
    - a [Date] is its time value, the number of milliseconds since the epoch;
    - JavaScript numbers holding grid sizes and level orders are integers;
    - a collection is the list of its documents in natural order, a query
      with [findOne] returns the first match;
    - the wall clock ([new Date()]), the clock Mongoose reads for its
      timestamps and the identifier generated for an inserted document are
      arguments of the handlers. *)

From Stdlib Require Import ZArith List String Bool Lia Sorted Permutation Ascii.
From stdpp Require Import base option gmap sets strings.
Import ListNotations.

Local Open Scope Z_scope.

(** ** Documents *)

Definition ObjectId := string.
Definition Date := Z.

(** [IPuzzle] of models/Puzzle.ts ([pz_id] is [_id]). *)
Record IPuzzle := mkPuzzle {
  pz_id : ObjectId;
  title : string;
  imageUrl : string;
  gridRows : Z;
  gridCols : Z;
  levelOrder : Z;
  isActive : bool
}.

(** [IUserProgress] of models/UserProgress.ts ([up_id] is [_id]);
    [createdAt] and [updatedAt] are maintained by [timestamps: true]. *)
Record IUserProgress := mkProgress {
  up_id : ObjectId;
  userId : ObjectId;
  puzzleId : ObjectId;
  placedPieceIds : list string;
  isCompleted : bool;
  completedAt : option Date;
  createdAt : Date;
  updatedAt : Date
}.

(** Modelled from the spec: the [User] model (models/User.ts) is not among
    the sources.  The identity collaborator supplies a subscription tier per
    user, which the fetch reads as [user?.subscriptionTier]: a document
    carries its [_id] and a [subscriptionTier] string that may be absent. *)
Record IUser := mkUser {
  user_id : ObjectId;
  subscriptionTier : option string
}.

(** The three collections. *)
Record Db := mkDb {
  Puzzles : list IPuzzle;
  UserProgresses : list IUserProgress;
  Users : list IUser
}.

(** ** Replies *)

Record PuzzleView := mkPuzzleView {
  pv_id : ObjectId;
  pv_title : string;
  pv_imageUrl : string;
  pv_gridRows : Z;
  pv_gridCols : Z;
  pv_levelOrder : Z
}.

Record ProgressView := mkProgressView {
  v_placedPieceIds : list string;
  v_isCompleted : bool;
  v_completedAt : option Date
}.

(** One entry of the listing of GET /puzzles; its [progress] field carries
    [placedPieceIds] and [completedAt] only. *)
Record PuzzleStatus := mkPuzzleStatus {
  st_puzzle : PuzzleView;
  st_isUnlocked : bool;
  st_isCompleted : bool;
  st_progress : option (list string * option Date)
}.

Inductive Body :=
| ListBody (puzzles : list PuzzleStatus)
| PuzzleBody (puzzle : PuzzleView) (progress : option ProgressView)
| ProgressBody (progress : option IUserProgress)
| SaveBody (message : string) (progress : ProgressView)
| MessageBody (message : string).

(** [Json b] is [res.json(b)] (status 200); [Err c e] is
    [res.status(c).json({ error: e, ... })]. *)
Inductive Reply :=
| Json (body : Body)
| Err (status : Z) (error : string).

Definition view_of_puzzle (puzzle : IPuzzle) : PuzzleView :=
  mkPuzzleView (pz_id puzzle) (title puzzle) (imageUrl puzzle)
               (gridRows puzzle) (gridCols puzzle) (levelOrder puzzle).

Definition view_of_progress (progress : IUserProgress) : ProgressView :=
  mkProgressView (placedPieceIds progress) (isCompleted progress)
                 (completedAt progress).

(** ** Queries *)

(** [Puzzle.findOne({ _id: puzzleId, isActive: true })] *)
Definition findActivePuzzle (db : Db) (id : ObjectId) : option IPuzzle :=
  List.find (fun pz => String.eqb (pz_id pz) id && isActive pz) (Puzzles db).

(** [Puzzle.findById(puzzleId)] *)
Definition findPuzzleById (db : Db) (id : ObjectId) : option IPuzzle :=
  List.find (fun pz => String.eqb (pz_id pz) id) (Puzzles db).

(** [Puzzle.findOne({ levelOrder: puzzle.levelOrder - 1, isActive: true })] *)
Definition previousPuzzle (db : Db) (puzzle : IPuzzle) : option IPuzzle :=
  List.find (fun pz => (levelOrder pz =? levelOrder puzzle - 1) && isActive pz)
            (Puzzles db).

(** The filter [{ userId, puzzleId }] on a progress document. *)
Definition matchesKey (uid pid : ObjectId) (p : IUserProgress) : bool :=
  String.eqb (userId p) uid && String.eqb (puzzleId p) pid.

(** [UserProgress.findOne({ userId, puzzleId })] *)
Definition findProgress (coll : list IUserProgress) (uid pid : ObjectId)
  : option IUserProgress :=
  List.find (matchesKey uid pid) coll.

(** [UserProgress.findOne({ userId, puzzleId: previousPuzzle._id,
    isCompleted: true })] *)
Definition previousProgress (db : Db) (uid : ObjectId) (prev : IPuzzle)
  : option IUserProgress :=
  List.find (fun p => String.eqb (userId p) uid
                      && String.eqb (puzzleId p) (pz_id prev)
                      && isCompleted p)
            (UserProgresses db).

(** [UserProgress.find({ userId })] *)
Definition progressOfUser (db : Db) (uid : ObjectId) : list IUserProgress :=
  List.filter (fun p => String.eqb (userId p) uid) (UserProgresses db).

(** [User.findById(userId)] *)
Definition findUser (db : Db) (uid : ObjectId) : option IUser :=
  List.find (fun u => String.eqb (user_id u) uid) (Users db).

(** ** The single-level fetch, GET /puzzles/:id *)

Definition msPerDay : Z := 86400000.

(** [d.setUTCHours(0, 0, 0, 0)]: the time value of day [Day(t)] at time
    0:00:00.000, that is [MakeDate(Day(t), 0)] with
    [Day(t) = floor(t / msPerDay)]. *)
Definition setUTCHours0 (t : Date) : Date := (t / msPerDay) * msPerDay.

(** [UserProgress.countDocuments({ userId, createdAt: { $gte: startOfDay } })] *)
Definition countCreatedSince (db : Db) (uid : ObjectId) (since : Date) : Z :=
  Z.of_nat (List.length
    (List.filter (fun p => String.eqb (userId p) uid && (since <=? createdAt p))
                 (UserProgresses db))).

Definition puzzlesStartedToday (db : Db) (uid : ObjectId) (now : Date) : Z :=
  let startOfDay := setUTCHours0 now in
  countCreatedSince db uid startOfDay.

(** The guard of the lock check: the level has an order above 1, an active
    level sits at the order just below, and the user has no completed
    progress on it. *)
Definition levelLocked (db : Db) (uid : ObjectId) (puzzle : IPuzzle) : bool :=
  if 1 <? levelOrder puzzle then
    match previousPuzzle db puzzle with
    | Some previous =>
        match previousProgress db uid previous with
        | Some _ => false
        | None => true
        end
    | None => false
    end
  else false.

(** [user?.subscriptionTier || "free"] *)
Definition tierOrFree (user : option IUser) : string :=
  match user with
  | Some u =>
      match subscriptionTier u with
      | Some s => if String.eqb s "" then "free" else s
      | None => "free"
      end
  | None => "free"
  end%string.

(** [progress && progress.placedPieceIds.length > 0] *)
Definition hasExistingProgress (progress : option IUserProgress) : bool :=
  match progress with
  | Some p => 0 <? Z.of_nat (List.length (placedPieceIds p))
  | None => false
  end.

Definition getPuzzle (db : Db) (now : Date) (uid id : ObjectId) : Reply :=
  match findActivePuzzle db id with
  | None => Err 404 "Puzzle not found"
  | Some puzzle =>
      if levelLocked db uid puzzle then Err 403 "Level locked"
      else
        let progress := findProgress (UserProgresses db) uid (pz_id puzzle) in
        let user := findUser db uid in
        let subscriptionTier := tierOrFree user in
        let found := Json (PuzzleBody (view_of_puzzle puzzle)
                                      (option_map view_of_progress progress)) in
        if String.eqb subscriptionTier "free" then
          if negb (hasExistingProgress progress) then
            if 1 <=? puzzlesStartedToday db uid now then Err 403 "daily_limit"
            else found
          else found
        else found
  end.

(** ** The listing, GET /puzzles *)

(** [.sort({ levelOrder: 1 })], as a stable insertion sort. *)
Fixpoint insertByOrder (x : IPuzzle) (l : list IPuzzle) : list IPuzzle :=
  match l with
  | [] => [x]
  | y :: r =>
      if levelOrder x <=? levelOrder y then x :: y :: r
      else y :: insertByOrder x r
  end.

Fixpoint sortByOrder (l : list IPuzzle) : list IPuzzle :=
  match l with
  | [] => []
  | x :: r => insertByOrder x (sortByOrder r)
  end.

(** [Puzzle.find({ isActive: true }).sort({ levelOrder: 1 })] *)
Definition activePuzzles (db : Db) : list IPuzzle :=
  sortByOrder (List.filter isActive (Puzzles db)).

(** [.filter(Boolean)] on values that are a number or [undefined]. *)
Fixpoint filterBoolean (l : list (option Z)) : list Z :=
  match l with
  | [] => []
  | Some n :: r => if n =? 0 then filterBoolean r else n :: filterBoolean r
  | None :: r => filterBoolean r
  end.

(** [puzzles.find((pz) => pz._id.toString() === p.puzzleId.toString())
    ?.levelOrder] *)
Definition orderOfProgress (puzzles : list IPuzzle) (p : IUserProgress)
  : option Z :=
  option_map levelOrder
    (List.find (fun pz => String.eqb (pz_id pz) (puzzleId p)) puzzles).

Definition completedLevels (puzzles : list IPuzzle)
    (progressRecords : list IUserProgress) : gset Z :=
  list_to_set
    (filterBoolean
       (List.map (orderOfProgress puzzles)
                 (List.filter isCompleted progressRecords))).

(** [new Map(progressRecords.map((p) => [p.puzzleId.toString(), p]))]:
    a later entry replaces an earlier one with the same key. *)
Definition progressMap (progressRecords : list IUserProgress)
  : gmap string IUserProgress :=
  List.fold_left (fun m p => <[puzzleId p := p]> m) progressRecords ∅.

Definition isUnlocked (done : gset Z) (puzzle : IPuzzle) : bool :=
  (levelOrder puzzle =? 1) || bool_decide (levelOrder puzzle - 1 ∈ done).

Definition puzzlesWithStatus (db : Db) (uid : ObjectId) : list PuzzleStatus :=
  let puzzles := activePuzzles db in
  let progressRecords := progressOfUser db uid in
  let pmap := progressMap progressRecords in
  let done := completedLevels puzzles progressRecords in
  List.map
    (fun puzzle =>
       let progress := pmap !! pz_id puzzle in
       mkPuzzleStatus
         (view_of_puzzle puzzle)
         (isUnlocked done puzzle)
         (match progress with Some p => isCompleted p | None => false end)
         (option_map (fun p => (placedPieceIds p, completedAt p)) progress))
    puzzles.

Definition listPuzzles (db : Db) (uid : ObjectId) : Reply :=
  Json (ListBody (puzzlesWithStatus db uid)).

(** ** The progress routes *)

(** GET /progress/:puzzleId *)
Definition getProgress (db : Db) (uid pid : ObjectId) : Reply :=
  Json (ProgressBody (findProgress (UserProgresses db) uid pid)).

(** The update [{ $set: { placedPieceIds, isCompleted, completedAt } }]
    applied to a matched document; Mongoose adds [updatedAt] to the [$set]. *)
Definition applySet (p : IUserProgress) (pieces : list string) (done : bool)
    (doneAt : option Date) (stamp : Date) : IUserProgress :=
  mkProgress (up_id p) (userId p) (puzzleId p) pieces done doneAt
             (createdAt p) stamp.

(** The document inserted when nothing matches: the equality fields of the
    filter, the [$set], and [createdAt] from [$setOnInsert]. *)
Definition insertedDoc (fresh uid pid : ObjectId) (pieces : list string)
    (done : bool) (doneAt : option Date) (stamp : Date) : IUserProgress :=
  mkProgress fresh uid pid pieces done doneAt stamp stamp.

(** [UserProgress.findOneAndUpdate({ userId, puzzleId }, { $set: ... },
    { upsert: true, new: true })]: the collection afterwards and the
    document as it is after the update. *)
Fixpoint findOneAndUpdate (coll : list IUserProgress) (stamp : Date)
    (fresh uid pid : ObjectId) (pieces : list string) (done : bool)
    (doneAt : option Date) : list IUserProgress * IUserProgress :=
  match coll with
  | [] =>
      let doc := insertedDoc fresh uid pid pieces done doneAt stamp in
      ([doc], doc)
  | p :: rest =>
      if matchesKey uid pid p then
        let p' := applySet p pieces done doneAt stamp in
        (p' :: rest, p')
      else
        let '(rest', doc) :=
          findOneAndUpdate rest stamp fresh uid pid pieces done doneAt in
        (p :: rest', doc)
  end.

(** [UserProgress.findOneAndDelete({ userId, puzzleId })] *)
Fixpoint findOneAndDelete (coll : list IUserProgress) (uid pid : ObjectId)
  : list IUserProgress :=
  match coll with
  | [] => []
  | p :: rest =>
      if matchesKey uid pid p then rest
      else p :: findOneAndDelete rest uid pid
  end.

Definition withProgresses (db : Db) (coll : list IUserProgress) : Db :=
  mkDb (Puzzles db) coll (Users db).

(** PUT /progress/:puzzleId.  [validation] is the outcome of
    [updateProgressSchema.safeParse(req.body)]: the parsed [placedPieceIds],
    or [None] when the body is rejected.  [now] is the handler's
    [new Date()], [stamp] the time Mongoose writes into its timestamps and
    [fresh] the [_id] an inserted document receives. *)
Definition putProgress (db : Db) (now stamp : Date) (fresh : ObjectId)
    (uid pid : ObjectId) (validation : option (list string)) : Db * Reply :=
  match validation with
  | None => (db, Err 400 "Validation failed")
  | Some pieces =>
      match findPuzzleById db pid with
      | None => (db, Err 404 "Puzzle not found")
      | Some puzzle =>
          let totalPieces := gridRows puzzle * gridCols puzzle in
          let done := totalPieces <=? Z.of_nat (List.length pieces) in
          let '(coll, progress) :=
            findOneAndUpdate (UserProgresses db) stamp fresh uid pid pieces
                             done (if done then Some now else None) in
          (withProgresses db coll,
           Json (SaveBody (if done then "Puzzle completed!"
                           else "Progress saved")
                          (view_of_progress progress)))
      end
  end.

(** DELETE /progress/:puzzleId *)
Definition deleteProgress (db : Db) (uid pid : ObjectId) : Db * Reply :=
  (withProgresses db (findOneAndDelete (UserProgresses db) uid pid),
   Json (MessageBody "Progress reset successfully")).

(** ** Request sequences *)

Inductive Request :=
| ListPuzzles (uid : ObjectId)
| GetPuzzle (now : Date) (uid id : ObjectId)
| GetProgress (uid pid : ObjectId)
| PutProgress (now stamp : Date) (fresh uid pid : ObjectId)
              (validation : option (list string))
| DeleteProgress (uid pid : ObjectId).

Definition handle (db : Db) (r : Request) : Db * Reply :=
  match r with
  | ListPuzzles uid => (db, listPuzzles db uid)
  | GetPuzzle now uid id => (db, getPuzzle db now uid id)
  | GetProgress uid pid => (db, getProgress db uid pid)
  | PutProgress now stamp fresh uid pid validation =>
      putProgress db now stamp fresh uid pid validation
  | DeleteProgress uid pid => deleteProgress db uid pid
  end.

(** The database after a sequence of requests, with the replies given. *)
Fixpoint run (db : Db) (rs : list Request) : Db * list Reply :=
  match rs with
  | [] => (db, [])
  | r :: rest =>
      let '(db1, reply) := handle db r in
      let '(db2, replies) := run db1 rest in
      (db2, reply :: replies)
  end.

(** ** Notions the properties are stated with *)

(** The flag [isUnlocked] the listing reports for [puzzle]. *)
Definition listedUnlocked (db : Db) (uid : ObjectId) (puzzle : IPuzzle) : bool :=
  isUnlocked (completedLevels (activePuzzles db) (progressOfUser db uid)) puzzle.

(** The user has a progress document on [puzzle] with [isCompleted] set. *)
Definition hasCompleted (db : Db) (uid : ObjectId) (puzzle : IPuzzle) : Prop :=
  exists p, In p (UserProgresses db) /\ userId p = uid
            /\ puzzleId p = pz_id puzzle /\ isCompleted p = true.

(** [f] takes different values on different members of [l]: how a unique
    index on the field [f] constrains a collection. *)
Definition uniqueOn {A B : Type} (f : A -> B) (l : list A) : Prop :=
  forall a b, In a l -> In b l -> f a = f b -> a = b.

(** The compound unique index [{ userId: 1, puzzleId: 1 }] of the
    [UserProgress] collection. *)
Definition keyOf (p : IUserProgress) : ObjectId * ObjectId :=
  (userId p, puzzleId p).

Definition uniqueIndex (coll : list IUserProgress) : Prop :=
  NoDup (List.map keyOf coll).

(** The number of distinct entries of a list of piece identifiers. *)
Definition distinctCount (pieces : list string) : Z :=
  Z.of_nat (List.length (nodup string_dec pieces)).

(** The completion flag a save computes from the parsed body and the grid:
    [placedPieceIds.length >= puzzle.gridRows * puzzle.gridCols]. *)
Definition reachesTotal (puzzle : IPuzzle) (pieces : list string) : bool :=
  gridRows puzzle * gridCols puzzle <=? Z.of_nat (List.length pieces).

(** The progress view carried by the reply to a save. *)
Definition savedView (r : Reply) : option ProgressView :=
  match r with
  | Json (SaveBody _ v) => Some v
  | _ => None
  end.

(** ** A small catalog used in the examples below *)

Module Example.

Definition levelA := mkPuzzle "a1" "Level A" "a.png" 2 2 1 true.
Definition levelB := mkPuzzle "b2" "Level B" "b.png" 3 3 2 true.
Definition levelC := mkPuzzle "c3" "Level C" "c.png" 2 2 3 true.
Definition freeUser := mkUser "u1" (Some "free").
Definition proUser := mkUser "u2" (Some "pro").

(** Levels A, B, C at orders 1, 2, 3 and nobody has played yet. *)
Definition db0 := mkDb [levelA; levelB; levelC] [] [freeUser; proUser].

(** The same catalog once level B has been retired: nothing active sits at
    order 2, just below level C. *)
Definition dbGap :=
  mkDb [levelA; mkPuzzle "b2" "Level B" "b.png" 3 3 2 false; levelC] []
       [freeUser; proUser].

Definition fourPieces : list string := ["p0"; "p1"; "p2"; "p3"].

(** 12:00 UTC on day 20000 after the epoch. *)
Definition noon : Date := 20000 * msPerDay + 43200000.

(** The free user has placed one piece of level A at noon. *)
Definition dbPlayed :=
  mkDb [levelA; levelB; levelC]
       [mkProgress "r1" "u1" "a1" ["p0"] false None noon noon]
       [freeUser; proUser].

(** The free user has completed level A at noon. *)
Definition dbDoneA :=
  mkDb [levelA; levelB; levelC]
       [mkProgress "r1" "u1" "a1" fourPieces true (Some noon) noon noon]
       [freeUser; proUser].

End Example.

(** * The other routes *)

(** ** Who a request acts for *)

(** [req.userId] of a request, as the [authenticate] middleware sets it. *)
Definition requester (r : Request) : ObjectId :=
  match r with
  | ListPuzzles uid => uid
  | GetPuzzle _ uid _ => uid
  | GetProgress uid _ => uid
  | PutProgress _ _ _ uid _ _ => uid
  | DeleteProgress uid _ => uid
  end.

(** The sort order of [.sort({ levelOrder: 1 })]. *)
Definition orderLe (a b : IPuzzle) : Prop := levelOrder a <= levelOrder b.

(** ** GET /progress *)

(** The fields [.populate("puzzleId", "title levelOrder gridRows gridCols")]
    selects from the referenced puzzle, with its [_id]. *)
Record PopulatedPuzzle := mkPopulatedPuzzle {
  pp_id : ObjectId;
  pp_title : string;
  pp_levelOrder : Z;
  pp_gridRows : Z;
  pp_gridCols : Z
}.

(** A progress document after [populate]: [puzzleId] holds the referenced
    puzzle, or null when no puzzle carries that [_id]. *)
Record PopulatedProgress := mkPopulatedProgress {
  pr_id : ObjectId;
  pr_userId : ObjectId;
  pr_puzzleId : option PopulatedPuzzle;
  pr_placedPieceIds : list string;
  pr_isCompleted : bool;
  pr_completedAt : option Date;
  pr_createdAt : Date;
  pr_updatedAt : Date
}.

Definition populatePuzzleId (db : Db) (p : IUserProgress) : PopulatedProgress :=
  mkPopulatedProgress
    (up_id p) (userId p)
    (option_map
       (fun pz => mkPopulatedPuzzle (pz_id pz) (title pz) (levelOrder pz)
                                    (gridRows pz) (gridCols pz))
       (findPuzzleById db (puzzleId p)))
    (placedPieceIds p) (isCompleted p) (completedAt p) (createdAt p)
    (updatedAt p).

(** The body of the reply to GET /progress:
    [UserProgress.find({ userId }).populate(...)]. *)
Definition progressRecords (db : Db) (uid : ObjectId) : list PopulatedProgress :=
  List.map (populatePuzzleId db) (progressOfUser db uid).

(** Every progress document refers to a puzzle of the catalog. *)
Definition refersToCatalog (db : Db) : Prop :=
  forall p, In p (UserProgresses db) ->
            exists pz, findPuzzleById db (puzzleId p) = Some pz.

(** ** The subscription routes *)

(** The replies of the subscription routes: [message] is absent from the
    reply to GET /subscription/status. *)
Inductive SubscriptionReply :=
| TierJson (message : option string) (tier : option string)
| TierErr (status : Z) (error : string).

(** [User.findByIdAndUpdate(userId, { revenuecatId, subscriptionTier },
    { new: true })] on the fields of the user document kept here: the
    collection afterwards and the updated document, or null. *)
Fixpoint findByIdAndUpdateTier (users : list IUser) (uid : ObjectId)
    (tier : string) : list IUser * option IUser :=
  match users with
  | [] => ([], None)
  | u :: rest =>
      if String.eqb (user_id u) uid then
        let u' := mkUser (user_id u) (Some tier) in
        (u' :: rest, Some u')
      else
        let '(rest', found) := findByIdAndUpdateTier rest uid tier in
        (u :: rest', found)
  end.

(** POST /subscription/sync.  [validation] is the outcome of
    [syncSchema.safeParse(req.body)]: the parsed [revenuecatId] and
    [isPro], or [None] when the body is rejected. *)
Definition syncSubscription (db : Db) (uid : ObjectId)
    (validation : option (string * bool)) : Db * SubscriptionReply :=
  match validation with
  | None => (db, TierErr 400 "Validation failed")
  | Some (revenuecatId, isPro) =>
      let '(users, user) :=
        findByIdAndUpdateTier (Users db) uid (if isPro then "pro" else "free") in
      match user with
      | None => (db, TierErr 404 "User not found")
      | Some u =>
          (mkDb (Puzzles db) (UserProgresses db) users,
           TierJson (Some "Subscription synced") (subscriptionTier u))
      end
  end.

(** GET /subscription/status *)
Definition subscriptionStatus (db : Db) (uid : ObjectId) : SubscriptionReply :=
  match findUser db uid with
  | None => TierErr 404 "User not found"
  | Some u => TierJson None (Some (tierOrFree (Some u)))
  end.

(** ** The administration of the catalog *)

(** GET /admin/puzzles: [Puzzle.find().sort({ levelOrder: 1 })]. *)
Definition adminListPuzzles (db : Db) : list IPuzzle :=
  sortByOrder (Puzzles db).

(** [UserProgress.deleteMany({ puzzleId })] *)
Definition deleteManyByPuzzle (coll : list IUserProgress) (pid : ObjectId)
  : list IUserProgress :=
  List.filter (fun p => negb (String.eqb (puzzleId p) pid)) coll.

(** [puzzle.deleteOne()]: the document with that [_id] leaves the
    collection. *)
Fixpoint deleteOneById (puzzles : list IPuzzle) (id : ObjectId) : list IPuzzle :=
  match puzzles with
  | [] => []
  | pz :: rest =>
      if String.eqb (pz_id pz) id then rest
      else pz :: deleteOneById rest id
  end.

(** DELETE /admin/puzzles/:id.  The call [deleteImage(puzzle.imageKey)]
    acts on the bucket only, which is outside the three collections. *)
Definition adminDeletePuzzle (db : Db) (id : ObjectId) : Db * Reply :=
  match findPuzzleById db id with
  | None => (db, Err 404 "Puzzle not found")
  | Some puzzle =>
      let coll := deleteManyByPuzzle (UserProgresses db) (pz_id puzzle) in
      let puzzles := deleteOneById (Puzzles db) (pz_id puzzle) in
      (mkDb puzzles coll (Users db),
       Json (MessageBody "Puzzle deleted successfully"))
  end.

(** ** The storage service *)

(** [s.split(sep)] for a separator of one character: the pieces of [s]
    between the occurrences of [sep], at least one piece. *)
Fixpoint splitOn (sep : ascii) (s : string) : list string :=
  match s with
  | EmptyString => [EmptyString]
  | String c rest =>
      if Ascii.eqb c sep then EmptyString :: splitOn sep rest
      else
        match splitOn sep rest with
        | piece :: pieces => String c piece :: pieces
        | [] => [String c EmptyString]
        end
  end.

(** [originalname.split(".").pop() || fallback] *)
Definition fileExtension (fallback originalname : string) : string :=
  let last := List.last (splitOn "." originalname) EmptyString in
  if String.eqb last "" then fallback else last.

(** The fields of [Express.Multer.File] the service reads. *)
Record MulterFile := mkFile {
  originalname : string;
  mimetype : string;
  buffer : string
}.

Record PutObjectCommand := mkPutObject {
  put_Bucket : string;
  put_Key : string;
  put_Body : string;
  put_ContentType : string
}.

Record UploadResult := mkUpload {
  up_url : string;
  up_key : string
}.

(** [uploadImage(file)]: the command sent to the bucket and the result
    returned.  [bucket] is [S3_BUCKET], [bucketUrl] is [env.AWS_BUCKET_URL]
    and [uuid] the value of [crypto.randomUUID()]. *)
Definition uploadImage (bucket bucketUrl uuid : string) (file : MulterFile)
  : PutObjectCommand * UploadResult :=
  let ext := fileExtension "jpg" (originalname file) in
  let key := ("puzzles/" ++ uuid ++ "." ++ ext)%string in
  let url := (bucketUrl ++ "/" ++ key)%string in
  (mkPutObject bucket key (buffer file) (mimetype file), mkUpload url key).

(** [uploadAudio(file)] *)
Definition uploadAudio (bucket bucketUrl uuid : string) (file : MulterFile)
  : PutObjectCommand * UploadResult :=
  let ext := fileExtension "mp3" (originalname file) in
  let key := ("audiobooks/" ++ uuid ++ "." ++ ext)%string in
  let url := (bucketUrl ++ "/" ++ key)%string in
  (mkPutObject bucket key (buffer file) (mimetype file), mkUpload url key).

(** The string holds no character [c]. *)
Fixpoint freeOf (c : ascii) (s : string) : bool :=
  match s with
  | EmptyString => true
  | String d rest => negb (Ascii.eqb d c) && freeOf c rest
  end.

(** ** Authentication *)

(** Modelled from the spec: the [User] model (models/User.ts) is not among
    the sources.  An account is the user document with the fields the
    authentication code reads besides those of [IUser]: [email], [role] and
    [isActive]. *)
Record IAccount := mkAccount {
  acc_user : IUser;
  acc_email : string;
  acc_role : string;
  acc_isActive : bool
}.

(** What [jwt.verify(token, env.JWT_SECRET)] does: it returns the payload
    or throws one of the library's two errors, or something else. *)
Inductive JwtResult :=
| Decoded (userId email role : string)
| TokenExpiredError
| JsonWebTokenError
| OtherError.

(** [Next user userId] is the call of [next()] with [req.user] and
    [req.userId] set; [Denied c e] is [res.status(c).json({ error: e })]. *)
Inductive AuthOutcome :=
| Next (user : IAccount) (userId : ObjectId)
| Denied (status : Z) (error : string).

(** [User.findById(id)] on the accounts. *)
Definition findAccount (accounts : list IAccount) (id : ObjectId)
  : option IAccount :=
  List.find (fun a => String.eqb (user_id (acc_user a)) id) accounts.

Section Authenticate.

(** [jwt.verify] with the secret of the environment. *)
Variable verify : string -> JwtResult.

(** The middleware once it holds a token: verification, then the lookup
    of the account and the check that it is active. *)
Definition verifiedAccount (accounts : list IAccount) (token : string)
  : AuthOutcome :=
  match verify token with
  | Decoded userId _ _ =>
      match findAccount accounts userId with
      | None => Denied 401 "User not found"
      | Some user =>
          if negb (acc_isActive user)
          then Denied 403 "Account is not activated"
          else Next user userId
      end
  | TokenExpiredError => Denied 401 "Token expired"
  | JsonWebTokenError => Denied 401 "Invalid token"
  | OtherError => Denied 500 "Authentication failed"
  end.

(** The [authenticate] middleware on the [Authorization] header. *)
Definition authenticate (accounts : list IAccount)
    (authorization : option string) : AuthOutcome :=
  match authorization with
  | None => Denied 401 "No token provided"
  | Some authHeader =>
      if String.eqb authHeader "" || negb (String.prefix "Bearer " authHeader)
      then Denied 401 "No token provided"
      else
        match List.nth_error (splitOn " " authHeader) 1 with
        | None => Denied 401 "Invalid token format"
        | Some token =>
            if String.eqb token "" then Denied 401 "Invalid token format"
            else verifiedAccount accounts token
        end
  end.

End Authenticate.

(** ** Activating and deactivating accounts *)

Inductive ActivateReply :=
| ActivateJson (message : string) (user : IAccount)
| ActivateErr (status : Z) (error : string).

(** [targetUser.isActive = isActive; await targetUser.save()] on the
    document with that [_id]. *)
Fixpoint saveIsActive (accounts : list IAccount) (id : ObjectId) (b : bool)
  : list IAccount :=
  match accounts with
  | [] => []
  | a :: rest =>
      if String.eqb (user_id (acc_user a)) id
      then mkAccount (acc_user a) (acc_email a) (acc_role a) b :: rest
      else a :: saveIsActive rest id b
  end.

(** The handler of PUT /auth/admin/:id/activate.  [reqUser] is [req.user];
    [isActive] is [req.body.isActive] when it is a boolean. *)
Definition activateHandler (accounts : list IAccount)
    (reqUser : option IAccount) (id : ObjectId) (isActive : option bool)
  : list IAccount * ActivateReply :=
  match reqUser with
  | None => (accounts, ActivateErr 403 "Active admin access required")
  | Some user =>
      if negb (String.eqb (acc_role user) "admin") || negb (acc_isActive user)
      then (accounts, ActivateErr 403 "Active admin access required")
      else
        match isActive with
        | None => (accounts, ActivateErr 400 "isActive (boolean) is required")
        | Some b =>
            match findAccount accounts id with
            | None => (accounts, ActivateErr 404 "User not found")
            | Some targetUser =>
                if String.eqb (user_id (acc_user targetUser))
                              (user_id (acc_user user))
                then (accounts,
                      ActivateErr 400 "Cannot change your own active status")
                else
                  (saveIsActive accounts (user_id (acc_user targetUser)) b,
                   ActivateJson
                     (if b then "Account activated successfully"
                      else "Account deactivated successfully")
                     (mkAccount (acc_user targetUser) (acc_email targetUser)
                                (acc_role targetUser) b))
            end
        end
  end.

(** The route: [authenticate], then the handler. *)
Definition activateRoute (verify : string -> JwtResult)
    (accounts : list IAccount) (authorization : option string)
    (id : ObjectId) (isActive : option bool) : list IAccount * ActivateReply :=
  match authenticate verify accounts authorization with
  | Denied status error => (accounts, ActivateErr status error)
  | Next user _ => activateHandler accounts (Some user) id isActive
  end.

(** ** Accounts and a verifier used in the examples below *)

Module AuthExample.

Definition root := mkAccount (mkUser "ad1" None) "root@example.org" "admin" true.
Definition second := mkAccount (mkUser "ad2" None) "new@example.org" "admin" false.
Definition player := mkAccount (mkUser "u1" (Some "free")) "p@example.org" "user" true.
Definition accounts := [root; second; player].

(** A verifier that accepts the tokens "t-ad1", "t-ad2" and "t-u1". *)
Definition verify (token : string) : JwtResult :=
  if String.eqb token "t-ad1" then Decoded "ad1" "root@example.org" "admin"
  else if String.eqb token "t-ad2" then Decoded "ad2" "new@example.org" "admin"
  else if String.eqb token "t-u1" then Decoded "u1" "p@example.org" "user"
  else JsonWebTokenError.

End AuthExample.

(** ** Sequences of actions on the store *)

(** What changes the three collections: a request of a player, the deletion
    of a level by an administrator, the sync of a subscription. *)
Inductive Action :=
| ByPlayer (r : Request)
| AdminDelete (id : ObjectId)
| SyncSubscription (uid : ObjectId) (validation : option (string * bool)).

Definition perform (db : Db) (a : Action) : Db :=
  match a with
  | ByPlayer r => fst (handle db r)
  | AdminDelete id => fst (adminDeletePuzzle db id)
  | SyncSubscription uid validation => fst (syncSubscription db uid validation)
  end.

Definition performAll (db : Db) (actions : list Action) : Db :=
  List.fold_left perform actions db.

(** ** Reading a listing entry *)

(** The [isCompleted] field of a user's listing entry for [puzzle], read
    from the store: [progress?.isCompleted ?? false] on the record
    [findOne] returns. *)
Definition shownCompleted (db : Db) (uid : ObjectId) (puzzle : IPuzzle) : bool :=
  match findProgress (UserProgresses db) uid (pz_id puzzle) with
  | Some p => isCompleted p
  | None => false
  end.

(** * Properties *)

(** ** Queries and the store *)

Section Store.

Implicit Types (coll : list IUserProgress) (uid pid : ObjectId)
  (p q : IUserProgress).

Lemma matchesKey_spec uid pid p :
  matchesKey uid pid p = true <-> keyOf p = (uid, pid).
Proof.
  unfold matchesKey, keyOf.
  rewrite andb_true_iff, !String.eqb_eq.
  split; [intros [-> ->]; reflexivity | intros [= -> ->]; auto].
Qed.

Lemma matchesKey_other uid pid uid' pid' p :
  (uid', pid') <> (uid, pid) ->
  matchesKey uid pid p = true -> matchesKey uid' pid' p = false.
Proof.
  intros Hne Hm. apply matchesKey_spec in Hm.
  destruct (matchesKey uid' pid' p) eqn:E; [|reflexivity].
  apply matchesKey_spec in E. congruence.
Qed.

Lemma findProgress_Some coll uid pid p :
  findProgress coll uid pid = Some p ->
  In p coll /\ userId p = uid /\ puzzleId p = pid.
Proof.
  intros H. apply find_some in H as [Hin Hm].
  apply matchesKey_spec in Hm. injection Hm as -> ->. auto.
Qed.

Lemma findProgress_None coll uid pid :
  findProgress coll uid pid = None <-> ~ In (uid, pid) (List.map keyOf coll).
Proof.
  unfold findProgress. induction coll as [|q coll IH]; simpl.
  - tauto.
  - destruct (matchesKey uid pid q) eqn:E.
    + apply matchesKey_spec in E. split; [discriminate | intros H; tauto].
    + rewrite IH. split; [|tauto].
      intros H [Hq|Hin]; [|tauto].
      apply matchesKey_spec in Hq. congruence.
Qed.

(** On a key that is present, the upsert rewrites the matched document in
    place and returns it. *)
Lemma findOneAndUpdate_found coll stamp fresh uid pid pieces done doneAt p :
  findProgress coll uid pid = Some p ->
  snd (findOneAndUpdate coll stamp fresh uid pid pieces done doneAt)
  = applySet p pieces done doneAt stamp.
Proof.
  unfold findProgress. induction coll as [|q coll IH]; simpl; [discriminate|].
  destruct (matchesKey uid pid q) eqn:E.
  - intros [= ->]. reflexivity.
  - intros H. specialize (IH H).
    destruct (findOneAndUpdate coll stamp fresh uid pid pieces done doneAt).
    exact IH.
Qed.

(** On a key that is absent, the upsert appends a new document. *)
Lemma findOneAndUpdate_missing coll stamp fresh uid pid pieces done doneAt :
  findProgress coll uid pid = None ->
  findOneAndUpdate coll stamp fresh uid pid pieces done doneAt
  = (coll ++ [insertedDoc fresh uid pid pieces done doneAt stamp],
     insertedDoc fresh uid pid pieces done doneAt stamp).
Proof.
  unfold findProgress. induction coll as [|q coll IH]; simpl; [reflexivity|].
  destruct (matchesKey uid pid q) eqn:E; [discriminate|].
  intros H. rewrite (IH H). reflexivity.
Qed.

(** The document the upsert returns is the one a later [findOne] on the
    same key reads. *)
Lemma findOneAndUpdate_lookup coll stamp fresh uid pid pieces done doneAt :
  findProgress (fst (findOneAndUpdate coll stamp fresh uid pid pieces done doneAt))
               uid pid
  = Some (snd (findOneAndUpdate coll stamp fresh uid pid pieces done doneAt)).
Proof.
  unfold findProgress. induction coll as [|q coll IH]; simpl.
  - unfold insertedDoc, matchesKey; simpl. rewrite !String.eqb_refl. reflexivity.
  - destruct (matchesKey uid pid q) eqn:E; simpl.
    + unfold applySet at 1. unfold matchesKey in *. simpl. rewrite E. reflexivity.
    + destruct (findOneAndUpdate coll stamp fresh uid pid pieces done doneAt).
      simpl in *. rewrite E. exact IH.
Qed.

(** Documents under other keys are out of reach of the upsert. *)
Lemma findOneAndUpdate_frame coll stamp fresh uid pid pieces done doneAt uid' pid' :
  (uid', pid') <> (uid, pid) ->
  findProgress (fst (findOneAndUpdate coll stamp fresh uid pid pieces done doneAt))
               uid' pid'
  = findProgress coll uid' pid'.
Proof.
  intros Hne. unfold findProgress. induction coll as [|q coll IH]; simpl.
  - destruct (matchesKey uid' pid' _) eqn:E; [|reflexivity].
    apply matchesKey_spec in E. unfold keyOf, insertedDoc in E. simpl in E.
    congruence.
  - destruct (matchesKey uid pid q) eqn:E; simpl.
    + rewrite (matchesKey_other _ _ _ _ _ Hne E).
      destruct (matchesKey uid' pid' (applySet q pieces done doneAt stamp)) eqn:E';
        [|reflexivity].
      apply matchesKey_spec in E, E'. unfold keyOf, applySet in *. simpl in *.
      congruence.
    + destruct (findOneAndUpdate coll stamp fresh uid pid pieces done doneAt).
      simpl in *. rewrite IH. reflexivity.
Qed.

Lemma findOneAndUpdate_keys coll stamp fresh uid pid pieces done doneAt :
  List.map keyOf (fst (findOneAndUpdate coll stamp fresh uid pid pieces done doneAt))
  = match findProgress coll uid pid with
    | Some _ => List.map keyOf coll
    | None => List.map keyOf coll ++ [(uid, pid)]
    end.
Proof.
  unfold findProgress. induction coll as [|q coll IH]; simpl; [reflexivity|].
  destruct (matchesKey uid pid q) eqn:E; simpl.
  - reflexivity.
  - destruct (findOneAndUpdate coll stamp fresh uid pid pieces done doneAt).
    simpl in *. rewrite IH.
    destruct (List.find (matchesKey uid pid) coll); reflexivity.
Qed.

(** The upsert never creates a second document for a key. *)
Lemma findOneAndUpdate_unique coll stamp fresh uid pid pieces done doneAt :
  uniqueIndex coll ->
  uniqueIndex (fst (findOneAndUpdate coll stamp fresh uid pid pieces done doneAt)).
Proof.
  unfold uniqueIndex. intros Hu. rewrite findOneAndUpdate_keys.
  destruct (findProgress coll uid pid) eqn:E; [exact Hu|].
  apply findProgress_None in E.
  apply NoDup_app. split; [exact Hu|]. split; [|apply NoDup_singleton].
  intros k Hk Hk'. apply list_elem_of_In in Hk, Hk'.
  destruct Hk' as [<-|[]]. contradiction.
Qed.

Lemma findOneAndDelete_keys_incl coll uid pid k :
  In k (List.map keyOf (findOneAndDelete coll uid pid)) ->
  In k (List.map keyOf coll).
Proof.
  induction coll as [|q coll IH]; simpl; [tauto|].
  destruct (matchesKey uid pid q); simpl; tauto.
Qed.

Lemma findOneAndDelete_unique coll uid pid :
  uniqueIndex coll -> uniqueIndex (findOneAndDelete coll uid pid).
Proof.
  unfold uniqueIndex. induction coll as [|q coll IH]; simpl; [auto|].
  intros Hu. inversion Hu as [|? ? Hq Hu']; subst.
  destruct (matchesKey uid pid q); simpl; [exact Hu'|].
  constructor; [|auto].
  intros Hin. apply Hq. apply list_elem_of_In. apply list_elem_of_In in Hin.
  eapply findOneAndDelete_keys_incl; eauto.
Qed.

(** Under the unique index, deleting a key leaves no document under it. *)
Lemma findOneAndDelete_lookup coll uid pid :
  uniqueIndex coll ->
  findProgress (findOneAndDelete coll uid pid) uid pid = None.
Proof.
  unfold uniqueIndex, findProgress.
  induction coll as [|q coll IH]; simpl; [reflexivity|].
  intros Hu. inversion Hu as [|? ? Hq Hu']; subst.
  destruct (matchesKey uid pid q) eqn:E; simpl.
  - apply matchesKey_spec in E. rewrite E in Hq.
    apply findProgress_None. rewrite <- list_elem_of_In. exact Hq.
  - rewrite E. auto.
Qed.

Lemma findOneAndDelete_frame coll uid pid uid' pid' :
  (uid', pid') <> (uid, pid) ->
  findProgress (findOneAndDelete coll uid pid) uid' pid'
  = findProgress coll uid' pid'.
Proof.
  intros Hne. unfold findProgress.
  induction coll as [|q coll IH]; simpl; [reflexivity|].
  destruct (matchesKey uid pid q) eqn:E; simpl.
  - rewrite (matchesKey_other _ _ _ _ _ Hne E). reflexivity.
  - rewrite IH. reflexivity.
Qed.

End Store.

(** ** Saving and resetting progress *)

Section Progress.

Implicit Types (db : Db) (uid pid fresh : ObjectId) (now stamp : Date)
  (pieces : list string) (puzzle : IPuzzle) (p : IUserProgress).

(** The fields the upsert writes, whichever branch it takes. *)
Lemma findOneAndUpdate_fields (coll : list IUserProgress) stamp fresh uid pid
    pieces done doneAt :
  let doc := snd (findOneAndUpdate coll stamp fresh uid pid pieces done doneAt) in
  userId doc = uid /\ puzzleId doc = pid /\ placedPieceIds doc = pieces
  /\ isCompleted doc = done /\ completedAt doc = doneAt /\ updatedAt doc = stamp.
Proof.
  simpl. destruct (findProgress coll uid pid) as [q|] eqn:E.
  - rewrite (findOneAndUpdate_found _ _ _ _ _ _ _ _ _ E).
    apply findProgress_Some in E as (_ & Hu & Hp). simpl. tauto.
  - rewrite (findOneAndUpdate_missing _ _ _ _ _ _ _ _ E). simpl. tauto.
Qed.

(** What a save with an accepted body does on a level that exists. *)
Lemma putProgress_found db now stamp fresh uid pid pieces puzzle :
  findPuzzleById db pid = Some puzzle ->
  let done := reachesTotal puzzle pieces in
  let res := findOneAndUpdate (UserProgresses db) stamp fresh uid pid pieces
               done (if done then Some now else None) in
  putProgress db now stamp fresh uid pid (Some pieces)
  = (withProgresses db (fst res),
     Json (SaveBody (if done then "Puzzle completed!" else "Progress saved")
                    (view_of_progress (snd res)))).
Proof.
  intros Hpz. unfold putProgress, reachesTotal. rewrite Hpz. simpl.
  destruct (findOneAndUpdate _ _ _ _ _ _ _ _). reflexivity.
Qed.

(** A save leaves the catalog and the users alone. *)
Lemma putProgress_catalog db now stamp fresh uid pid validation :
  Puzzles (fst (putProgress db now stamp fresh uid pid validation)) = Puzzles db
  /\ Users (fst (putProgress db now stamp fresh uid pid validation)) = Users db.
Proof.
  unfold putProgress. destruct validation as [pieces|]; [|auto].
  destruct (findPuzzleById db pid); [|auto].
  destruct (findOneAndUpdate _ _ _ _ _ _ _ _). auto.
Qed.

(** The record a save leaves under its key. *)
Lemma putProgress_stored db now stamp fresh uid pid pieces puzzle :
  findPuzzleById db pid = Some puzzle ->
  exists p,
    findProgress (UserProgresses (fst (putProgress db now stamp fresh uid pid
                                                   (Some pieces)))) uid pid
    = Some p
    /\ savedView (snd (putProgress db now stamp fresh uid pid (Some pieces)))
       = Some (view_of_progress p)
    /\ placedPieceIds p = pieces
    /\ isCompleted p = reachesTotal puzzle pieces
    /\ completedAt p = (if reachesTotal puzzle pieces then Some now else None)
    /\ updatedAt p = stamp
    /\ createdAt p = match findProgress (UserProgresses db) uid pid with
                     | Some old => createdAt old
                     | None => stamp
                     end
    /\ up_id p = match findProgress (UserProgresses db) uid pid with
                 | Some old => up_id old
                 | None => fresh
                 end.
Proof.
  intros Hpz. rewrite (putProgress_found _ _ _ _ _ _ _ _ Hpz). simpl.
  set (done := reachesTotal puzzle pieces).
  set (doneAt := if done then Some now else None).
  exists (snd (findOneAndUpdate (UserProgresses db) stamp fresh uid pid pieces
                                done doneAt)).
  split; [apply findOneAndUpdate_lookup|]. split; [reflexivity|].
  destruct (findOneAndUpdate_fields (UserProgresses db) stamp fresh uid pid
              pieces done doneAt) as (_ & _ & Hpl & Hd & Hat & Hup).
  repeat (split; [assumption|]).
  destruct (findProgress (UserProgresses db) uid pid) as [old|] eqn:E.
  - rewrite (findOneAndUpdate_found _ _ _ _ _ _ _ _ _ E). auto.
  - rewrite (findOneAndUpdate_missing _ _ _ _ _ _ _ _ E). auto.
Qed.

(** Every handler maintains the unique index of the progress collection,
    so it holds after any sequence of requests. *)
Lemma handle_unique db (r : Request) :
  uniqueIndex (UserProgresses db) ->
  uniqueIndex (UserProgresses (fst (handle db r))).
Proof.
  intros Hu. destruct r as [| | |now stamp fresh uid pid validation|uid pid];
    simpl; try exact Hu.
  - unfold putProgress. destruct validation as [pieces|]; [|exact Hu].
    destruct (findPuzzleById db pid) as [puzzle|]; [|exact Hu].
    pose proof (findOneAndUpdate_unique (UserProgresses db) stamp fresh uid pid
                  pieces (gridRows puzzle * gridCols puzzle
                          <=? Z.of_nat (List.length pieces))
                  (if gridRows puzzle * gridCols puzzle
                      <=? Z.of_nat (List.length pieces)
                   then Some now else None) Hu) as Hu'.
    destruct (findOneAndUpdate _ _ _ _ _ _ _ _). exact Hu'.
  - apply findOneAndDelete_unique. exact Hu.
Qed.

Lemma run_unique (rs : list Request) db :
  uniqueIndex (UserProgresses db) ->
  uniqueIndex (UserProgresses (fst (run db rs))).
Proof.
  revert db. induction rs as [|r rs IH]; intros db Hu; simpl; [exact Hu|].
  pose proof (handle_unique db r Hu) as H1.
  destruct (handle db r) as [db1 reply]. simpl in H1.
  specialize (IH db1 H1). destruct (run db1 rs). exact IH.
Qed.

End Progress.

(** ** The progress store: frame of a save, reset and re-save *)

Section StoreClaims.

Implicit Types (db : Db) (uid pid fresh : ObjectId) (now stamp : Date)
  (pieces : list string) (puzzle : IPuzzle) (p : IUserProgress).

(** C9.  On a record that exists, a save rewrites [placedPieceIds],
    [isCompleted] and [completedAt] (and the [updatedAt] stamp Mongoose keeps)
    and nothing else: [_id], [userId], [puzzleId] and [createdAt] stay as they
    were, records under other keys are untouched, and so are the catalog and
    the users.  After a reset, reading the progress of that user on that
    level finds nothing, and the next save creates a record whose
    [createdAt] is the time of that save, under a new [_id]. *)
Theorem save_keeps_createdAt_reset_renews_it db uid pid puzzle :
  uniqueIndex (UserProgresses db) ->
  findPuzzleById db pid = Some puzzle ->
  (forall p now stamp fresh pieces,
      findProgress (UserProgresses db) uid pid = Some p ->
      let db1 := fst (putProgress db now stamp fresh uid pid (Some pieces)) in
      findProgress (UserProgresses db1) uid pid
      = Some (mkProgress (up_id p) (userId p) (puzzleId p) pieces
                (reachesTotal puzzle pieces)
                (if reachesTotal puzzle pieces then Some now else None)
                (createdAt p) stamp)
      /\ (forall uid' pid', (uid', pid') <> (uid, pid) ->
            findProgress (UserProgresses db1) uid' pid'
            = findProgress (UserProgresses db) uid' pid')
      /\ Puzzles db1 = Puzzles db /\ Users db1 = Users db)
  /\
  (let db2 := fst (deleteProgress db uid pid) in
   getProgress db2 uid pid = Json (ProgressBody None)
   /\ forall now stamp fresh pieces,
       exists p3,
         findProgress
           (UserProgresses (fst (putProgress db2 now stamp fresh uid pid
                                             (Some pieces)))) uid pid
         = Some p3
         /\ createdAt p3 = stamp /\ up_id p3 = fresh).
Proof.
  intros Hu Hpz. split.
  - intros p now stamp fresh pieces Hp db1. subst db1.
    rewrite (putProgress_found _ _ _ _ _ _ _ _ Hpz). simpl.
    split; [|split; [|split; reflexivity]].
    + rewrite findOneAndUpdate_lookup.
      rewrite (findOneAndUpdate_found _ _ _ _ _ _ _ _ _ Hp). reflexivity.
    + intros uid' pid' Hne. apply findOneAndUpdate_frame. exact Hne.
  - simpl. split.
    + unfold getProgress. simpl.
      rewrite (findOneAndDelete_lookup _ _ _ Hu). reflexivity.
    + intros now stamp fresh pieces.
      set (db2 := withProgresses db (findOneAndDelete (UserProgresses db) uid pid)).
      assert (Hpz2 : findPuzzleById db2 pid = Some puzzle) by exact Hpz.
      destruct (putProgress_stored db2 now stamp fresh uid pid pieces puzzle Hpz2)
        as (p3 & Hf & _ & _ & _ & _ & _ & Hc & Hi).
      exists p3. split; [exact Hf|].
      unfold db2 in Hc, Hi. simpl in Hc, Hi.
      rewrite (findOneAndDelete_lookup _ _ _ Hu) in Hc, Hi. auto.
Qed.

Lemma save_keeps_createdAt_reset_renews_it_witness :
  uniqueIndex (UserProgresses Example.dbPlayed)
  /\ findPuzzleById Example.dbPlayed "a1" = Some Example.levelA
  /\ (let db1 := fst (putProgress Example.dbPlayed (Example.noon + 5)
                                  (Example.noon + 6) "r2" "u1" "a1"
                                  (Some Example.fourPieces)) in
      option_map createdAt (findProgress (UserProgresses db1) "u1" "a1")
      = Some Example.noon)
  /\ getProgress (fst (deleteProgress Example.dbPlayed "u1" "a1")) "u1" "a1"
     = Json (ProgressBody None).
Proof.
  assert (Hu : uniqueIndex (UserProgresses Example.dbPlayed)).
  { unfold uniqueIndex. simpl. apply NoDup_singleton. }
  assert (Hpz : findPuzzleById Example.dbPlayed "a1" = Some Example.levelA)
    by reflexivity.
  destruct (save_keeps_createdAt_reset_renews_it Example.dbPlayed "u1" "a1"
              Example.levelA Hu Hpz) as [Hsave [Hget _]].
  split; [exact Hu|]. split; [exact Hpz|]. split; [|exact Hget].
  destruct (Hsave (mkProgress "r1" "u1" "a1" ["p0"] false None Example.noon
                              Example.noon)
                  (Example.noon + 5) (Example.noon + 6) "r2"
                  Example.fourPieces eq_refl) as [Hf _].
  cbv zeta in Hf |- *. rewrite Hf. reflexivity.
Defined.

End StoreClaims.

(** ** The completion rule applied by a save *)

Section Completion.

Implicit Types (db : Db) (uid pid fresh : ObjectId) (now stamp : Date)
  (pieces : list string) (puzzle : IPuzzle) (p : IUserProgress).

Lemma reachesTotal_true puzzle pieces :
  reachesTotal puzzle pieces = true
  <-> gridRows puzzle * gridCols puzzle <= Z.of_nat (List.length pieces).
Proof. unfold reachesTotal. apply Z.leb_le. Qed.

Lemma reachesTotal_false puzzle pieces :
  reachesTotal puzzle pieces = false
  <-> Z.of_nat (List.length pieces) < gridRows puzzle * gridCols puzzle.
Proof. unfold reachesTotal. rewrite Z.leb_gt. reflexivity. Qed.

(** A list without repetition has as many distinct entries as entries. *)
Lemma distinctCount_NoDup pieces :
  List.NoDup pieces -> distinctCount pieces = Z.of_nat (List.length pieces).
Proof.
  intros H. unfold distinctCount. rewrite (nodup_fixed_point string_dec H).
  reflexivity.
Qed.

(** C5, failing instance.  Level A is a 2 x 2 grid; a save whose list
    repeats one identifier four times is stored as completed although it
    holds a single distinct entry. *)
Lemma repeated_piece_completes_level :
  distinctCount ["p0"; "p0"; "p0"; "p0"]
  < gridRows Example.levelA * gridCols Example.levelA
  /\ option_map isCompleted
       (findProgress
          (UserProgresses
             (fst (putProgress Example.db0 Example.noon Example.noon "r1" "u1"
                               "a1" (Some ["p0"; "p0"; "p0"; "p0"]))))
          "u1" "a1")
     = Some true.
Proof. split; [vm_compute; reflexivity | reflexivity]. Qed.

(** C5, as the code has it.  The completed flag a save stores, and returns,
    is whether the supplied list has at least rows x cols entries, every
    entry counted, repeated or not: a list of exactly rows x cols entries is
    completed, one of rows x cols - 1 entries is not; when the list has no
    repetition this is the count of distinct entries. *)
Theorem completed_flag_counts_entries db now stamp fresh uid pid pieces puzzle :
  findPuzzleById db pid = Some puzzle ->
  let total := gridRows puzzle * gridCols puzzle in
  let out := putProgress db now stamp fresh uid pid (Some pieces) in
  exists p,
    findProgress (UserProgresses (fst out)) uid pid = Some p
    /\ savedView (snd out) = Some (view_of_progress p)
    /\ (isCompleted p = true <-> total <= Z.of_nat (List.length pieces))
    /\ (Z.of_nat (List.length pieces) = total -> isCompleted p = true)
    /\ (Z.of_nat (List.length pieces) = total - 1 -> isCompleted p = false)
    /\ (List.NoDup pieces ->
        (isCompleted p = true <-> total <= distinctCount pieces)).
Proof.
  intros Hpz total out.
  destruct (putProgress_stored db now stamp fresh uid pid pieces puzzle Hpz)
    as (p & Hf & Hv & _ & Hd & _).
  exists p. split; [exact Hf|]. split; [exact Hv|].
  rewrite Hd. split; [apply reachesTotal_true|].
  split; [intros H; apply reachesTotal_true; fold total; lia|].
  split; [intros H; apply reachesTotal_false; fold total; lia|].
  intros Hnd. rewrite (distinctCount_NoDup _ Hnd). apply reachesTotal_true.
Qed.

Lemma completed_flag_counts_entries_witness :
  findPuzzleById Example.db0 "a1" = Some Example.levelA
  /\ exists p,
      findProgress
        (UserProgresses
           (fst (putProgress Example.db0 Example.noon Example.noon "r1" "u1"
                             "a1" (Some Example.fourPieces)))) "u1" "a1"
      = Some p
      /\ isCompleted p = true.
Proof.
  split; [reflexivity|].
  destruct (completed_flag_counts_entries Example.db0 Example.noon Example.noon
              "r1" "u1" "a1" Example.fourPieces Example.levelA eq_refl)
    as (p & Hf & _ & _ & Hexact & _).
  exists p. split; [exact Hf|]. apply Hexact. reflexivity.
Defined.

(** C3, failing instance.  The free user completes level A at noon; a
    later save of a single piece answers with [completedAt] null and stores
    it so. *)
Lemma smaller_save_clears_completedAt :
  run Example.db0
      [PutProgress Example.noon Example.noon "r1" "u1" "a1"
                   (Some Example.fourPieces);
       PutProgress (Example.noon + 5) (Example.noon + 6) "r2" "u1" "a1"
                   (Some ["p0"]);
       GetProgress "u1" "a1"]
  = (mkDb (Puzzles Example.db0)
          [mkProgress "r1" "u1" "a1" ["p0"] false None Example.noon
                      (Example.noon + 6)]
          (Users Example.db0),
     [Json (SaveBody "Puzzle completed!"
                     (mkProgressView Example.fourPieces true
                                     (Some Example.noon)));
      Json (SaveBody "Progress saved" (mkProgressView ["p0"] false None));
      Json (ProgressBody
              (Some (mkProgress "r1" "u1" "a1" ["p0"] false None Example.noon
                                (Example.noon + 6))))]).
Proof. vm_compute. reflexivity. Qed.

(** C3, as the code has it.  On a record whose [completedAt] is set, a
    save leaves [completedAt] non-null exactly when the supplied list has at
    least rows x cols entries, and then it is the time of that save; a save
    with fewer entries sets it back to null.  A reset deletes the whole
    record. *)
Theorem completedAt_follows_each_save db now stamp fresh uid pid pieces puzzle p :
  uniqueIndex (UserProgresses db) ->
  findPuzzleById db pid = Some puzzle ->
  findProgress (UserProgresses db) uid pid = Some p ->
  completedAt p <> None ->
  let total := gridRows puzzle * gridCols puzzle in
  let db1 := fst (putProgress db now stamp fresh uid pid (Some pieces)) in
  (exists p1,
      findProgress (UserProgresses db1) uid pid = Some p1
      /\ (completedAt p1 <> None <-> total <= Z.of_nat (List.length pieces))
      /\ (total <= Z.of_nat (List.length pieces) -> completedAt p1 = Some now)
      /\ (Z.of_nat (List.length pieces) < total -> completedAt p1 = None))
  /\ findProgress (UserProgresses (fst (deleteProgress db uid pid))) uid pid
     = None.
Proof.
  intros Hu Hpz Hp Hset total db1. split.
  - destruct (putProgress_stored db now stamp fresh uid pid pieces puzzle Hpz)
      as (p1 & Hf & _ & _ & _ & Hat & _).
    exists p1. split; [exact Hf|]. rewrite Hat.
    destruct (reachesTotal puzzle pieces) eqn:E.
    + apply reachesTotal_true in E. fold total in E.
      split; [split; [auto | discriminate]|]. split; [reflexivity | lia].
    + apply reachesTotal_false in E. fold total in E.
      split; [split; [congruence | lia]|]. split; [lia | reflexivity].
  - simpl. apply findOneAndDelete_lookup. exact Hu.
Qed.

Lemma completedAt_follows_each_save_witness :
  uniqueIndex (UserProgresses Example.dbDoneA)
  /\ findPuzzleById Example.dbDoneA "a1" = Some Example.levelA
  /\ option_map completedAt
       (findProgress (UserProgresses Example.dbDoneA) "u1" "a1")
     = Some (Some Example.noon)
  /\ exists p1,
      findProgress
        (UserProgresses
           (fst (putProgress Example.dbDoneA (Example.noon + 5)
                             (Example.noon + 6) "r2" "u1" "a1" (Some ["p0"]))))
        "u1" "a1"
      = Some p1
      /\ completedAt p1 = None.
Proof.
  assert (Hu : uniqueIndex (UserProgresses Example.dbDoneA)).
  { unfold uniqueIndex. simpl. apply NoDup_singleton. }
  split; [exact Hu|]. split; [reflexivity|]. split; [reflexivity|].
  destruct (completedAt_follows_each_save Example.dbDoneA (Example.noon + 5)
              (Example.noon + 6) "r2" "u1" "a1" ["p0"] Example.levelA
              (mkProgress "r1" "u1" "a1" Example.fourPieces true
                          (Some Example.noon) Example.noon Example.noon)
              Hu eq_refl eq_refl ltac:(discriminate))
    as [(p1 & Hf & _ & _ & Hnull) _].
  exists p1. split; [exact Hf|]. apply Hnull. reflexivity.
Defined.

(** C4, failing instance.  Two saves in a row of the same four pieces of
    level A, five milliseconds apart: both are completed, and the second
    replaces the [completedAt] of the first by its own time. *)
Lemma second_save_restamps_completedAt :
  snd (run Example.db0
         [PutProgress Example.noon Example.noon "r1" "u1" "a1"
                      (Some Example.fourPieces);
          PutProgress (Example.noon + 5) (Example.noon + 5) "r2" "u1" "a1"
                      (Some Example.fourPieces)])
  = [Json (SaveBody "Puzzle completed!"
                    (mkProgressView Example.fourPieces true
                                    (Some Example.noon)));
     Json (SaveBody "Puzzle completed!"
                    (mkProgressView Example.fourPieces true
                                    (Some (Example.noon + 5))))]
  /\ Some Example.noon <> Some (Example.noon + 5).
Proof. split; [vm_compute; reflexivity | discriminate]. Qed.

(** C4, as the code has it.  Two saves in a row of the same list give the
    same [completed] flag.  Below the threshold [completedAt] is null both
    times; at or above it every save stamps [completedAt] with its own
    time, the first crossing or not, so the two stamps agree only when the
    two saves read the same clock value. *)
Theorem repeated_save_same_flag_new_stamp db uid pid pieces puzzle
    now1 stamp1 fresh1 now2 stamp2 fresh2 :
  findPuzzleById db pid = Some puzzle ->
  let out1 := putProgress db now1 stamp1 fresh1 uid pid (Some pieces) in
  let out2 := putProgress (fst out1) now2 stamp2 fresh2 uid pid (Some pieces) in
  exists p1 p2,
    findProgress (UserProgresses (fst out1)) uid pid = Some p1
    /\ findProgress (UserProgresses (fst out2)) uid pid = Some p2
    /\ savedView (snd out1) = Some (view_of_progress p1)
    /\ savedView (snd out2) = Some (view_of_progress p2)
    /\ isCompleted p1 = isCompleted p2
    /\ completedAt p1 = (if isCompleted p1 then Some now1 else None)
    /\ completedAt p2 = (if isCompleted p2 then Some now2 else None)
    /\ (completedAt p1 = completedAt p2
        <-> isCompleted p1 = false \/ now1 = now2).
Proof.
  intros Hpz out1 out2.
  destruct (putProgress_stored db now1 stamp1 fresh1 uid pid pieces puzzle Hpz)
    as (p1 & Hf1 & Hv1 & _ & Hd1 & Hat1 & _).
  assert (Hpz1 : findPuzzleById (fst out1) pid = Some puzzle).
  { unfold findPuzzleById, out1.
    rewrite (proj1 (putProgress_catalog db now1 stamp1 fresh1 uid pid
                                        (Some pieces))).
    exact Hpz. }
  destruct (putProgress_stored (fst out1) now2 stamp2 fresh2 uid pid pieces
              puzzle Hpz1)
    as (p2 & Hf2 & Hv2 & _ & Hd2 & Hat2 & _).
  exists p1, p2. repeat (split; [assumption|]).
  rewrite Hd1, Hd2, Hat1, Hat2.
  split; [reflexivity|]. split; [reflexivity|]. split; [reflexivity|].
  destruct (reachesTotal puzzle pieces).
  - split; [intros [= ->]; auto | intros [H| ->]; [discriminate | reflexivity]].
  - split; auto.
Qed.

Lemma repeated_save_same_flag_new_stamp_witness :
  findPuzzleById Example.db0 "a1" = Some Example.levelA
  /\ exists p1 p2,
      findProgress
        (UserProgresses
           (fst (putProgress Example.db0 Example.noon Example.noon "r1" "u1"
                             "a1" (Some ["p0"])))) "u1" "a1" = Some p1
      /\ findProgress
           (UserProgresses
              (fst (putProgress
                      (fst (putProgress Example.db0 Example.noon Example.noon
                                        "r1" "u1" "a1" (Some ["p0"])))
                      (Example.noon + 5) (Example.noon + 5) "r2" "u1" "a1"
                      (Some ["p0"])))) "u1" "a1" = Some p2
      /\ isCompleted p1 = isCompleted p2.
Proof.
  split; [reflexivity|].
  destruct (repeated_save_same_flag_new_stamp Example.db0 "u1" "a1" ["p0"]
              Example.levelA Example.noon Example.noon "r1" (Example.noon + 5)
              (Example.noon + 5) "r2" eq_refl)
    as (p1 & p2 & Hf1 & Hf2 & _ & _ & Hsame & _).
  exists p1, p2. auto.
Defined.

End Completion.

(** ** The single-level fetch *)

Section Fetch.

Implicit Types (db : Db) (uid id : ObjectId) (now : Date)
  (puzzle previous : IPuzzle) (p : IUserProgress).

(** The start of the UTC day of [t]. *)
Lemma setUTCHours0_spec (t : Date) :
  setUTCHours0 t = t - t mod msPerDay
  /\ setUTCHours0 t mod msPerDay = 0
  /\ setUTCHours0 t <= t < setUTCHours0 t + msPerDay.
Proof.
  unfold setUTCHours0.
  assert (Hpos : 0 < msPerDay) by reflexivity.
  pose proof (Z.div_mod t msPerDay ltac:(lia)) as Hdm.
  pose proof (Z.mod_pos_bound t msPerDay Hpos) as Hb.
  split; [lia|]. split; [apply Z.mod_mul; lia | lia].
Qed.

Lemma findActivePuzzle_Some db id puzzle :
  findActivePuzzle db id = Some puzzle ->
  In puzzle (Puzzles db) /\ pz_id puzzle = id /\ isActive puzzle = true.
Proof.
  intros H. apply find_some in H as [Hin Hm].
  apply andb_true_iff in Hm as [Hid Hact]. apply String.eqb_eq in Hid. auto.
Qed.

Lemma findActivePuzzle_None db id :
  findActivePuzzle db id = None
  <-> forall pz, In pz (Puzzles db) -> pz_id pz = id -> isActive pz = false.
Proof.
  unfold findActivePuzzle. split.
  - intros H pz Hin Hid. pose proof (find_none _ _ H pz Hin) as Hm. simpl in Hm.
    apply andb_false_iff in Hm as [Hm|Hm]; [|exact Hm].
    apply String.eqb_neq in Hm. contradiction.
  - intros H. destruct (List.find _ (Puzzles db)) as [pz|] eqn:E; [|reflexivity].
    apply find_some in E as [Hin Hm]. apply andb_true_iff in Hm as [Hid Hact].
    apply String.eqb_eq in Hid. rewrite (H pz Hin Hid) in Hact. discriminate.
Qed.

Lemma previousPuzzle_Some db puzzle previous :
  previousPuzzle db puzzle = Some previous ->
  In previous (Puzzles db) /\ levelOrder previous = levelOrder puzzle - 1
  /\ isActive previous = true.
Proof.
  intros H. apply find_some in H as [Hin Hm].
  apply andb_true_iff in Hm as [Ho Hact]. apply Z.eqb_eq in Ho. auto.
Qed.

(** No active level sits just below [puzzle]: a gap in the orders. *)
Lemma previousPuzzle_None db puzzle :
  previousPuzzle db puzzle = None
  <-> forall pz, In pz (Puzzles db) -> isActive pz = true ->
                 levelOrder pz <> levelOrder puzzle - 1.
Proof.
  unfold previousPuzzle. split.
  - intros H pz Hin Hact Ho. pose proof (find_none _ _ H pz Hin) as Hm.
    simpl in Hm. rewrite Hact, andb_true_r in Hm. apply Z.eqb_neq in Hm.
    contradiction.
  - intros H. destruct (List.find _ (Puzzles db)) as [pz|] eqn:E; [|reflexivity].
    apply find_some in E as [Hin Hm]. apply andb_true_iff in Hm as [Ho Hact].
    apply Z.eqb_eq in Ho. destruct (H pz Hin Hact Ho).
Qed.

(** The query for a completed record on the predecessor finds one exactly
    when there is one. *)
Lemma previousProgress_hasCompleted db uid previous :
  (exists p, previousProgress db uid previous = Some p)
  <-> hasCompleted db uid previous.
Proof.
  unfold previousProgress, hasCompleted. split.
  - intros [p H]. apply find_some in H as [Hin Hm].
    apply andb_true_iff in Hm as [Hm Hc]. apply andb_true_iff in Hm as [Hu Hp].
    apply String.eqb_eq in Hu, Hp. exists p. auto.
  - intros (p & Hin & Hu & Hp & Hc).
    destruct (List.find _ (UserProgresses db)) as [q|] eqn:E; [eauto|].
    pose proof (find_none _ _ E p Hin) as Hm. simpl in Hm.
    rewrite Hu, Hp, Hc, !String.eqb_refl in Hm. discriminate.
Qed.

Lemma levelLocked_true db uid puzzle :
  levelLocked db uid puzzle = true
  <-> 1 < levelOrder puzzle
      /\ exists previous, previousPuzzle db puzzle = Some previous
                          /\ ~ hasCompleted db uid previous.
Proof.
  unfold levelLocked. destruct (1 <? levelOrder puzzle) eqn:Ho.
  - apply Z.ltb_lt in Ho.
    destruct (previousPuzzle db puzzle) as [previous|].
    + destruct (previousProgress db uid previous) as [q|] eqn:Hq.
      * split; [discriminate|]. intros (_ & prev' & [= <-] & Hn).
        destruct Hn. apply previousProgress_hasCompleted. eauto.
      * split; [|reflexivity]. intros _. split; [exact Ho|].
        exists previous. split; [reflexivity|].
        intros Hc. apply previousProgress_hasCompleted in Hc as [q' Hq'].
        congruence.
    + split; [discriminate|]. intros (_ & prev' & Hd & _). discriminate.
  - apply Z.ltb_ge in Ho. split; [discriminate | lia].
Qed.

(** The three outcomes of the fetch, in the order the handler decides
    them. *)
Lemma getPuzzle_missing db now uid id :
  findActivePuzzle db id = None ->
  getPuzzle db now uid id = Err 404 "Puzzle not found".
Proof. intros H. unfold getPuzzle. rewrite H. reflexivity. Qed.

Lemma getPuzzle_locked db now uid id puzzle :
  findActivePuzzle db id = Some puzzle ->
  levelLocked db uid puzzle = true ->
  getPuzzle db now uid id = Err 403 "Level locked".
Proof. intros H L. unfold getPuzzle. rewrite H, L. reflexivity. Qed.

Lemma getPuzzle_unlocked db now uid id puzzle :
  findActivePuzzle db id = Some puzzle ->
  levelLocked db uid puzzle = false ->
  getPuzzle db now uid id
  = let progress := findProgress (UserProgresses db) uid (pz_id puzzle) in
    let found := Json (PuzzleBody (view_of_puzzle puzzle)
                                  (option_map view_of_progress progress)) in
    if String.eqb (tierOrFree (findUser db uid)) "free" then
      if negb (hasExistingProgress progress) then
        if 1 <=? puzzlesStartedToday db uid now then Err 403 "daily_limit"
        else found
      else found
    else found.
Proof. intros H L. unfold getPuzzle. rewrite H, L. reflexivity. Qed.

(** A denial by the quota comes with everything the handler checked on the
    way to it. *)
Lemma getPuzzle_daily_limit db now uid id :
  getPuzzle db now uid id = Err 403 "daily_limit" ->
  exists puzzle,
    findActivePuzzle db id = Some puzzle
    /\ levelLocked db uid puzzle = false
    /\ tierOrFree (findUser db uid) = "free"
    /\ hasExistingProgress
         (findProgress (UserProgresses db) uid (pz_id puzzle)) = false
    /\ 1 <= puzzlesStartedToday db uid now.
Proof.
  unfold getPuzzle. destruct (findActivePuzzle db id) as [puzzle|]; [|discriminate].
  destruct (levelLocked db uid puzzle) eqn:Hl; [discriminate|].
  destruct (String.eqb (tierOrFree (findUser db uid)) "free") eqn:Ht;
    [|discriminate].
  destruct (hasExistingProgress _) eqn:Hp; [discriminate|].
  destruct (1 <=? puzzlesStartedToday db uid now) eqn:Hc; [|discriminate].
  intros _. exists puzzle. apply String.eqb_eq in Ht. apply Z.leb_le in Hc.
  tauto.
Qed.

End Fetch.

(** ** The listing *)

Section Listing.

Implicit Types (db : Db) (uid : ObjectId) (puzzle previous pz : IPuzzle)
  (p : IUserProgress).

Lemma insertByOrder_In x y (l : list IPuzzle) :
  In y (insertByOrder x l) <-> y = x \/ In y l.
Proof.
  induction l as [|z l IH]; simpl.
  - intuition.
  - destruct (levelOrder x <=? levelOrder z); simpl; [intuition|].
    rewrite IH. intuition.
Qed.

(** Sorting keeps the documents it is given. *)
Lemma sortByOrder_In y (l : list IPuzzle) : In y (sortByOrder l) <-> In y l.
Proof.
  induction l as [|z l IH]; simpl; [reflexivity|].
  rewrite insertByOrder_In, IH. intuition.
Qed.

Lemma activePuzzles_In db pz :
  In pz (activePuzzles db) <-> In pz (Puzzles db) /\ isActive pz = true.
Proof. unfold activePuzzles. rewrite sortByOrder_In. apply filter_In. Qed.

Lemma filterBoolean_In n (l : list (option Z)) :
  In n (filterBoolean l) <-> n <> 0 /\ In (Some n) l.
Proof.
  induction l as [|[m|] l IH]; simpl.
  - tauto.
  - destruct (m =? 0) eqn:E.
    + apply Z.eqb_eq in E. rewrite IH. split; [tauto|].
      intros [Hn [[= ->]|Hin]]; [contradiction | tauto].
    + apply Z.eqb_neq in E. simpl. rewrite IH. split.
      * intros [->|H]; [auto | tauto].
      * intros [Hn [[= ->]|Hin]]; tauto.
  - rewrite IH. split; [tauto|]. intros [Hn [Hd|Hin]]; [discriminate | tauto].
Qed.

(** The set of completed orders: the non-zero orders of the listed levels
    on which the user has a completed record. *)
Lemma completedLevels_elem (puzzles : list IPuzzle)
    (records : list IUserProgress) (n : Z) :
  n ∈ completedLevels puzzles records
  <-> n <> 0 /\ exists p, In p records /\ isCompleted p = true
                         /\ orderOfProgress puzzles p = Some n.
Proof.
  unfold completedLevels.
  rewrite elem_of_list_to_set, list_elem_of_In, filterBoolean_In, in_map_iff.
  split.
  - intros [Hn (p & Ho & Hin)]. apply filter_In in Hin as [Hin Hc]. eauto.
  - intros [Hn (p & Hin & Hc & Ho)]. split; [exact Hn|].
    exists p. split; [exact Ho|]. apply filter_In. auto.
Qed.

(** Each entry of the listing carries [listedUnlocked] as its flag. *)
Lemma puzzlesWithStatus_flags db uid :
  List.map (fun s => (st_puzzle s, st_isUnlocked s)) (puzzlesWithStatus db uid)
  = List.map (fun puzzle => (view_of_puzzle puzzle, listedUnlocked db uid puzzle))
             (activePuzzles db).
Proof. unfold puzzlesWithStatus. rewrite map_map. reflexivity. Qed.

Lemma listedUnlocked_true db uid puzzle :
  listedUnlocked db uid puzzle = true
  <-> levelOrder puzzle = 1
      \/ (levelOrder puzzle - 1 <> 0
          /\ exists p pz,
               In p (UserProgresses db) /\ userId p = uid
               /\ isCompleted p = true
               /\ List.find (fun pz => String.eqb (pz_id pz) (puzzleId p))
                            (activePuzzles db) = Some pz
               /\ levelOrder pz = levelOrder puzzle - 1).
Proof.
  unfold listedUnlocked, isUnlocked.
  rewrite orb_true_iff, Z.eqb_eq, bool_decide_eq_true, completedLevels_elem.
  unfold orderOfProgress, progressOfUser.
  split; (intros [H1|[Hn H]]; [left; exact H1 | right; split; [exact Hn|]]).
  - destruct H as (p & Hin & Hc & Ho). apply filter_In in Hin as [Hin Hu].
    apply String.eqb_eq in Hu.
    destruct (List.find _ (activePuzzles db)) as [pz|] eqn:E; [|discriminate].
    injection Ho as Ho. exists p, pz. auto 6.
  - destruct H as (p & pz & Hin & Hu & Hc & Hf & Ho). exists p.
    split; [apply filter_In; split; [exact Hin | apply String.eqb_eq; exact Hu]|].
    split; [exact Hc|]. rewrite Hf. simpl. congruence.
Qed.

(** At a gap the listing reports the level as locked. *)
Lemma listedUnlocked_gap db uid puzzle :
  levelOrder puzzle <> 1 ->
  previousPuzzle db puzzle = None ->
  listedUnlocked db uid puzzle = false.
Proof.
  intros Hn Hgap. destruct (listedUnlocked db uid puzzle) eqn:E; [|reflexivity].
  apply listedUnlocked_true in E as [H1|[_ (p & pz & _ & _ & _ & Hf & Ho)]];
    [contradiction|].
  apply find_some in Hf as [Hin _]. apply activePuzzles_In in Hin as [Hin Hact].
  destruct (proj1 (previousPuzzle_None db puzzle) Hgap pz Hin Hact Ho).
Qed.

(** The fetch lets a level at a gap through the lock check. *)
Lemma levelLocked_gap db uid puzzle :
  previousPuzzle db puzzle = None -> levelLocked db uid puzzle = false.
Proof.
  intros Hgap. unfold levelLocked. rewrite Hgap.
  destruct (1 <? levelOrder puzzle); reflexivity.
Qed.

(** With identifiers and orders unique among the active levels, the
    listing's flag for a level above an active predecessor says whether the
    user completed that predecessor. *)
Lemma listedUnlocked_predecessor db uid puzzle previous :
  uniqueOn pz_id (List.filter isActive (Puzzles db)) ->
  uniqueOn levelOrder (List.filter isActive (Puzzles db)) ->
  1 < levelOrder puzzle ->
  previousPuzzle db puzzle = Some previous ->
  (listedUnlocked db uid puzzle = true <-> hasCompleted db uid previous).
Proof.
  intros Uid Uord Hgt Hprev.
  apply previousPuzzle_Some in Hprev as (Hpin & Hpo & Hpact).
  assert (Hpf : In previous (List.filter isActive (Puzzles db)))
    by (apply filter_In; auto).
  rewrite listedUnlocked_true. split.
  - intros [H1|[_ (p & pz & Hin & Hu & Hc & Hf & Ho)]]; [lia|].
    apply find_some in Hf as [Hzin Hzid]. apply String.eqb_eq in Hzid.
    apply activePuzzles_In in Hzin. apply filter_In in Hzin.
    assert (pz = previous) by (apply Uord; auto; congruence). subst pz.
    exists p. auto.
  - intros (p & Hin & Hu & Hp & Hc). right. split; [lia|].
    destruct (List.find (fun pz => String.eqb (pz_id pz) (puzzleId p))
                        (activePuzzles db)) as [pz|] eqn:E.
    + exists p, pz. repeat (split; [assumption || reflexivity|]).
      apply find_some in E as [Hzin Hzid]. apply String.eqb_eq in Hzid.
      apply activePuzzles_In in Hzin. apply filter_In in Hzin.
      assert (pz = previous) by (apply Uid; auto; congruence). subst pz.
      exact Hpo.
    + assert (Hact : In previous (activePuzzles db))
        by (apply activePuzzles_In; auto).
      pose proof (find_none _ _ E previous Hact) as Hm. simpl in Hm.
      rewrite Hp, String.eqb_refl in Hm. discriminate.
Qed.

End Listing.

(** ** Unlock policy, quota and the order of the checks *)

Section Access.

Implicit Types (db : Db) (uid id pid fresh : ObjectId) (now stamp : Date)
  (puzzle previous : IPuzzle) (p : IUserProgress) (pieces : list string).

(** For a level that is found, the fetch answers "Level locked" exactly
    when the lock check fires. *)
Lemma getPuzzle_locked_iff db now uid id puzzle :
  findActivePuzzle db id = Some puzzle ->
  (getPuzzle db now uid id = Err 403 "Level locked"
   <-> levelLocked db uid puzzle = true).
Proof.
  intros Hf. split; [|apply getPuzzle_locked; exact Hf].
  destruct (levelLocked db uid puzzle) eqn:L; [reflexivity|].
  rewrite (getPuzzle_unlocked _ _ _ _ _ Hf L). cbv zeta.
  destruct (String.eqb _ _); [|discriminate].
  destruct (negb _); [|discriminate].
  destruct (1 <=? _); discriminate.
Qed.

(** C7.  A level of order 1 is unlocked for every user, whatever the
    progress collection holds: the fetch does not answer "Level locked" and
    the listing flags it unlocked.  For a level of order above 1 whose
    predecessor (the active level one order below) exists, the fetch passes
    the lock check exactly when the user has a record on the predecessor
    with [isCompleted] set, and answers 403 "Level locked" otherwise; with
    identifiers and orders unique among the active levels the listing's
    flag says the same. *)
Theorem unlock_policy db now uid id puzzle :
  findActivePuzzle db id = Some puzzle ->
  (levelOrder puzzle = 1 ->
     getPuzzle db now uid id <> Err 403 "Level locked"
     /\ listedUnlocked db uid puzzle = true)
  /\ (forall previous,
        1 < levelOrder puzzle ->
        previousPuzzle db puzzle = Some previous ->
        (getPuzzle db now uid id <> Err 403 "Level locked"
         <-> hasCompleted db uid previous)
        /\ (~ hasCompleted db uid previous ->
            getPuzzle db now uid id = Err 403 "Level locked")
        /\ (uniqueOn pz_id (List.filter isActive (Puzzles db)) ->
            uniqueOn levelOrder (List.filter isActive (Puzzles db)) ->
            (listedUnlocked db uid puzzle = true
             <-> hasCompleted db uid previous))).
Proof.
  intros Hf. pose proof (getPuzzle_locked_iff db now uid id puzzle Hf) as Hiff.
  split.
  - intros H1. split.
    + rewrite Hiff, levelLocked_true. lia.
    + apply listedUnlocked_true. auto.
  - intros previous Hgt Hprev.
    assert (Hno : ~ hasCompleted db uid previous ->
                  levelLocked db uid puzzle = true).
    { intros Hn. apply levelLocked_true. eauto. }
    split; [|split].
    + rewrite Hiff, levelLocked_true. split.
      * intros Hn.
        destruct (previousProgress db uid previous) as [q|] eqn:Hq.
        -- apply previousProgress_hasCompleted. eauto.
        -- destruct Hn. split; [exact Hgt|]. exists previous.
           split; [exact Hprev|]. intros Hc.
           apply previousProgress_hasCompleted in Hc as [q Hq']. congruence.
      * intros Hc (_ & prev' & Hp' & Hn). rewrite Hprev in Hp'.
        injection Hp' as <-. contradiction.
    + intros Hn. apply Hiff, Hno, Hn.
    + intros Uid Uord. apply listedUnlocked_predecessor; assumption.
Qed.

Lemma unlock_policy_witness :
  findActivePuzzle Example.dbDoneA "b2" = Some Example.levelB
  /\ 1 < levelOrder Example.levelB
  /\ previousPuzzle Example.dbDoneA Example.levelB = Some Example.levelA
  /\ (getPuzzle Example.dbDoneA Example.noon "u2" "b2" = Err 403 "Level locked")
  /\ (getPuzzle Example.dbDoneA Example.noon "u1" "b2" <> Err 403 "Level locked"
      <-> hasCompleted Example.dbDoneA "u1" Example.levelA).
Proof.
  destruct (unlock_policy Example.dbDoneA Example.noon "u2" "b2" Example.levelB
              eq_refl) as [_ H2].
  destruct (H2 Example.levelA eq_refl eq_refl) as (_ & Hlocked & _).
  destruct (unlock_policy Example.dbDoneA Example.noon "u1" "b2" Example.levelB
              eq_refl) as [_ H1].
  destruct (H1 Example.levelA eq_refl eq_refl) as (Hopen & _).
  split; [reflexivity|]. split; [reflexivity|]. split; [reflexivity|].
  split; [|exact Hopen].
  apply Hlocked. intros (p & Hin & Hu & _).
  simpl in Hin. destruct Hin as [<-|[]]. discriminate.
Defined.

(** C6, on a catalog with a gap.  Level B, of order 2, has been retired,
    so no active level sits below level C, of order 3.  The fetch of C
    succeeds for a user who completed nothing, and the listing reports C
    to the same user as locked. *)
Theorem gap_level_fetchable_but_listed_locked :
  previousPuzzle Example.dbGap Example.levelC = None
  /\ UserProgresses Example.dbGap = []
  /\ getPuzzle Example.dbGap Example.noon "u1" "c3"
     = Json (PuzzleBody (view_of_puzzle Example.levelC) None)
  /\ List.map (fun s => (pv_id (st_puzzle s), st_isUnlocked s))
              (puzzlesWithStatus Example.dbGap "u1")
     = [("a1", true); ("c3", false)].
Proof. repeat split; vm_compute; reflexivity. Qed.

(** C8.  For a free user fetching a found, unlocked level on which they
    have no record, the handler takes the start of the current UTC day (the
    clock value minus its remainder modulo one day), counts the user's
    records created at or after it, and answers 403 "daily_limit" exactly
    when that count is at least 1; with a count of zero it returns the
    level. *)
Theorem quota_governor_decision db now uid id puzzle :
  findActivePuzzle db id = Some puzzle ->
  levelLocked db uid puzzle = false ->
  tierOrFree (findUser db uid) = "free" ->
  findProgress (UserProgresses db) uid (pz_id puzzle) = None ->
  let startOfDay := now - now mod msPerDay in
  let count :=
    Z.of_nat (List.length
      (List.filter (fun p => String.eqb (userId p) uid
                             && (startOfDay <=? createdAt p))
                   (UserProgresses db))) in
  startOfDay mod msPerDay = 0
  /\ startOfDay <= now < startOfDay + msPerDay
  /\ puzzlesStartedToday db uid now = count
  /\ (getPuzzle db now uid id = Err 403 "daily_limit" <-> 1 <= count)
  /\ (count = 0 ->
      getPuzzle db now uid id = Json (PuzzleBody (view_of_puzzle puzzle) None)).
Proof.
  intros Hf Hl Ht Hp startOfDay count.
  destruct (setUTCHours0_spec now) as (Heq & Hmod & Hrange).
  assert (Hcount : puzzlesStartedToday db uid now = count).
  { unfold puzzlesStartedToday, countCreatedSince, count, startOfDay.
    cbv zeta. rewrite Heq. reflexivity. }
  fold startOfDay in Heq. rewrite Heq in Hmod, Hrange.
  split; [exact Hmod|]. split; [exact Hrange|]. split; [exact Hcount|].
  rewrite (getPuzzle_unlocked _ _ _ _ _ Hf Hl). cbv zeta.
  rewrite Ht, Hp, Hcount. simpl.
  destruct (1 <=? count) eqn:E.
  - apply Z.leb_le in E. split; [tauto | lia].
  - apply Z.leb_gt in E. split; [split; [discriminate | lia] | reflexivity].
Qed.

Lemma quota_governor_decision_witness :
  findActivePuzzle Example.dbDoneA "b2" = Some Example.levelB
  /\ levelLocked Example.dbDoneA "u1" Example.levelB = false
  /\ tierOrFree (findUser Example.dbDoneA "u1") = "free"
  /\ findProgress (UserProgresses Example.dbDoneA) "u1" "b2" = None
  /\ getPuzzle Example.dbDoneA (Example.noon + 5) "u1" "b2"
     = Err 403 "daily_limit"
  /\ getPuzzle Example.dbDoneA (Example.noon + msPerDay) "u1" "b2"
     = Json (PuzzleBody (view_of_puzzle Example.levelB) None).
Proof.
  do 4 (split; [reflexivity|]). apply conj.
  - apply (quota_governor_decision Example.dbDoneA (Example.noon + 5) "u1" "b2"
             Example.levelB eq_refl eq_refl eq_refl eq_refl).
    vm_compute. discriminate.
  - apply (quota_governor_decision Example.dbDoneA (Example.noon + msPerDay)
             "u1" "b2" Example.levelB eq_refl eq_refl eq_refl eq_refl).
    reflexivity.
Defined.

(** C10.  The fetch decides its errors in a fixed order.  When no active
    level carries the identifier, the answer is 404, before anything else
    is looked at.  When the level is found and locked for the user, the
    answer is 403 "Level locked", whatever the tier of the user and however
    many records they created today.  Hence an answer 403 "daily_limit"
    implies that the level exists, is active, and is not locked for that
    user. *)
Theorem fetch_checks_in_order db now uid id :
  ((forall pz, In pz (Puzzles db) -> pz_id pz = id -> isActive pz = false) ->
   getPuzzle db now uid id = Err 404 "Puzzle not found")
  /\ (forall puzzle,
        findActivePuzzle db id = Some puzzle ->
        levelLocked db uid puzzle = true ->
        getPuzzle db now uid id = Err 403 "Level locked"
        /\ getPuzzle db now uid id <> Err 403 "daily_limit")
  /\ (getPuzzle db now uid id = Err 403 "daily_limit" ->
      exists puzzle,
        In puzzle (Puzzles db) /\ pz_id puzzle = id /\ isActive puzzle = true
        /\ findActivePuzzle db id = Some puzzle
        /\ levelLocked db uid puzzle = false).
Proof.
  split; [|split].
  - intros H. apply getPuzzle_missing, findActivePuzzle_None, H.
  - intros puzzle Hf Hl. rewrite (getPuzzle_locked _ _ _ _ _ Hf Hl).
    split; [reflexivity | discriminate].
  - intros H. apply getPuzzle_daily_limit in H as (puzzle & Hf & Hl & _).
    exists puzzle. destruct (findActivePuzzle_Some _ _ _ Hf) as (Hin & Hid & Ha).
    auto 6.
Qed.

Lemma fetch_checks_in_order_witness :
  tierOrFree (findUser Example.dbPlayed "u1") = "free"
  /\ 1 <= puzzlesStartedToday Example.dbPlayed "u1" (Example.noon + 5)
  /\ findProgress (UserProgresses Example.dbPlayed) "u1" "b2" = None
  /\ levelLocked Example.dbPlayed "u1" Example.levelB = true
  /\ getPuzzle Example.dbPlayed (Example.noon + 5) "u1" "b2"
     = Err 403 "Level locked".
Proof.
  split; [reflexivity|]. split; [vm_compute; discriminate|].
  split; [reflexivity|]. split; [reflexivity|].
  destruct (fetch_checks_in_order Example.dbPlayed (Example.noon + 5) "u1" "b2")
    as (_ & Hlocked & _).
  apply (Hlocked Example.levelB eq_refl eq_refl).
Defined.

(** C2, failing instance.  The free user saves level A with an empty list
    of pieces at noon; the record exists, as reading it back shows, and the
    fetch of level A five milliseconds later is denied with "daily_limit". *)
Lemma empty_record_is_denied_by_quota :
  snd (run Example.db0
         [PutProgress Example.noon Example.noon "r1" "u1" "a1" (Some []);
          GetProgress "u1" "a1";
          GetPuzzle (Example.noon + 5) "u1" "a1"])
  = [Json (SaveBody "Progress saved" (mkProgressView [] false None));
     Json (ProgressBody
             (Some (mkProgress "r1" "u1" "a1" [] false None Example.noon
                               Example.noon)));
     Err 403 "daily_limit"].
Proof. vm_compute. reflexivity. Qed.

(** C2, as the code has it.  For a free user fetching a level, the quota
    check is bypassed when a record for the user and the level exists and
    holds at least one placed piece: the fetch then never answers
    "daily_limit".  A denial with "daily_limit" therefore means that the
    user has no record on the level, or one whose [placedPieceIds] is empty;
    a record with no placed piece is subject to the quota like no record
    at all. *)
Theorem quota_bypass_needs_a_placed_piece db now uid id puzzle :
  findActivePuzzle db id = Some puzzle ->
  (forall p, findProgress (UserProgresses db) uid (pz_id puzzle) = Some p ->
             placedPieceIds p <> [] ->
             getPuzzle db now uid id <> Err 403 "daily_limit")
  /\ (getPuzzle db now uid id = Err 403 "daily_limit" ->
      findProgress (UserProgresses db) uid (pz_id puzzle) = None
      \/ exists p, findProgress (UserProgresses db) uid (pz_id puzzle) = Some p
                   /\ placedPieceIds p = [])
  /\ (forall p, findProgress (UserProgresses db) uid (pz_id puzzle) = Some p ->
                placedPieceIds p = [] ->
                levelLocked db uid puzzle = false ->
                tierOrFree (findUser db uid) = "free" ->
                (getPuzzle db now uid id = Err 403 "daily_limit"
                 <-> 1 <= puzzlesStartedToday db uid now)).
Proof.
  intros Hf.
  assert (Hden : getPuzzle db now uid id = Err 403 "daily_limit" ->
                 findProgress (UserProgresses db) uid (pz_id puzzle) = None
                 \/ exists p,
                      findProgress (UserProgresses db) uid (pz_id puzzle) = Some p
                      /\ placedPieceIds p = []).
  { intros H. apply getPuzzle_daily_limit in H as (pz & Hf' & _ & _ & Hex & _).
    rewrite Hf in Hf'. injection Hf' as <-.
    destruct (findProgress (UserProgresses db) uid (pz_id puzzle)) as [p|];
      [right|left; reflexivity].
    exists p. split; [reflexivity|]. simpl in Hex.
    destruct (placedPieceIds p); [reflexivity | discriminate]. }
  split; [|split; [exact Hden|]].
  - intros p Hp Hne H. destruct (Hden H) as [Hn|(q & Hq & Hnil)]; congruence.
  - intros p Hp Hnil Hl Ht. rewrite (getPuzzle_unlocked _ _ _ _ _ Hf Hl).
    cbv zeta. rewrite Ht, Hp. simpl. rewrite Hnil. simpl.
    destruct (1 <=? puzzlesStartedToday db uid now) eqn:E.
    + apply Z.leb_le in E. tauto.
    + apply Z.leb_gt in E. split; [discriminate | lia].
Qed.

Lemma quota_bypass_needs_a_placed_piece_witness :
  findActivePuzzle Example.dbPlayed "a1" = Some Example.levelA
  /\ 1 <= puzzlesStartedToday Example.dbPlayed "u1" (Example.noon + 5)
  /\ getPuzzle Example.dbPlayed (Example.noon + 5) "u1" "a1"
     <> Err 403 "daily_limit".
Proof.
  split; [reflexivity|]. split; [vm_compute; discriminate|].
  destruct (quota_bypass_needs_a_placed_piece Example.dbPlayed
              (Example.noon + 5) "u1" "a1" Example.levelA eq_refl)
    as [Hbypass _].
  apply (Hbypass (mkProgress "r1" "u1" "a1" ["p0"] false None Example.noon
                             Example.noon) eq_refl).
  discriminate.
Defined.

(** C1, failing instance.  In the first database the free user has
    started level A today without completing it, so level B is locked for
    them; in the second they have completed level A today, so level B is
    unlocked but their quota for the day is used up.  The fetch of level B
    is refused in both, yet in both a save on level B is answered with 200
    and leaves a record that a later read returns. *)
Lemma save_ignores_lock_and_quota :
  getPuzzle Example.dbPlayed (Example.noon + 5) "u1" "b2"
  = Err 403 "Level locked"
  /\ snd (run Example.dbPlayed
            [PutProgress (Example.noon + 5) (Example.noon + 6) "r2" "u1" "b2"
                         (Some ["p0"]);
             GetProgress "u1" "b2"])
     = [Json (SaveBody "Progress saved" (mkProgressView ["p0"] false None));
        Json (ProgressBody
                (Some (mkProgress "r2" "u1" "b2" ["p0"] false None
                                  (Example.noon + 6) (Example.noon + 6))))]
  /\ getPuzzle Example.dbDoneA (Example.noon + 5) "u1" "b2"
     = Err 403 "daily_limit"
  /\ snd (run Example.dbDoneA
            [PutProgress (Example.noon + 5) (Example.noon + 6) "r2" "u1" "b2"
                         (Some ["p0"]);
             GetProgress "u1" "b2"])
     = [Json (SaveBody "Progress saved" (mkProgressView ["p0"] false None));
        Json (ProgressBody
                (Some (mkProgress "r2" "u1" "b2" ["p0"] false None
                                  (Example.noon + 6) (Example.noon + 6))))].
Proof. repeat split; vm_compute; reflexivity. Qed.

(** C1, as the code has it.  A save consults neither the unlock policy
    nor the quota: it never answers 403.  With an accepted body it fails
    only with 404, when no level (active or not) carries the identifier,
    and then writes nothing; otherwise it persists the record under the
    user and the level and returns it, in every database, so whatever the
    lock state of the level and the tier and quota of the user. *)
Theorem save_checks_only_that_the_level_exists db now stamp fresh uid pid
    (validation : option (list string)) :
  (forall e, snd (putProgress db now stamp fresh uid pid validation) <> Err 403 e)
  /\ (forall pieces,
        validation = Some pieces ->
        findPuzzleById db pid = None ->
        putProgress db now stamp fresh uid pid validation
        = (db, Err 404 "Puzzle not found"))
  /\ (forall pieces puzzle,
        validation = Some pieces ->
        findPuzzleById db pid = Some puzzle ->
        exists p,
          findProgress
            (UserProgresses (fst (putProgress db now stamp fresh uid pid
                                              validation))) uid pid = Some p
          /\ placedPieceIds p = pieces
          /\ savedView (snd (putProgress db now stamp fresh uid pid validation))
             = Some (view_of_progress p)).
Proof.
  split; [|split].
  - intros e. unfold putProgress. destruct validation as [pieces|];
      [|simpl; discriminate].
    destruct (findPuzzleById db pid); [|simpl; discriminate].
    destruct (findOneAndUpdate _ _ _ _ _ _ _ _). simpl. discriminate.
  - intros pieces -> Hn. unfold putProgress. rewrite Hn. reflexivity.
  - intros pieces puzzle -> Hpz.
    destruct (putProgress_stored db now stamp fresh uid pid pieces puzzle Hpz)
      as (p & Hf & Hv & Hpl & _).
    exists p. auto.
Qed.

Lemma save_checks_only_that_the_level_exists_witness :
  levelLocked Example.dbPlayed "u1" Example.levelB = true
  /\ findPuzzleById Example.dbPlayed "b2" = Some Example.levelB
  /\ exists p,
      findProgress
        (UserProgresses
           (fst (putProgress Example.dbPlayed (Example.noon + 5)
                             (Example.noon + 6) "r2" "u1" "b2" (Some ["p0"]))))
        "u1" "b2" = Some p
      /\ placedPieceIds p = ["p0"].
Proof.
  split; [reflexivity|]. split; [reflexivity|].
  destruct (save_checks_only_that_the_level_exists Example.dbPlayed
              (Example.noon + 5) (Example.noon + 6) "r2" "u1" "b2"
              (Some ["p0"])) as (_ & _ & Hsave).
  destruct (Hsave ["p0"] Example.levelB eq_refl eq_refl) as (p & Hf & Hpl & _).
  exists p. auto.
Defined.

End Access.

(** * Further properties of the routes *)

(** ** What a user's requests read *)

Section Isolation.

Implicit Types (db : Db) (uid pid id fresh : ObjectId) (now stamp : Date)
  (p : IUserProgress) (coll : list IUserProgress).

(** A search whose predicate implies a filter can be run on the filtered
    list. *)
Lemma find_in_filter {A : Type} (P Q : A -> bool) (l : list A) :
  (forall x, P x = true -> Q x = true) ->
  List.find P (List.filter Q l) = List.find P l.
Proof.
  intros HPQ. induction l as [|a l IH]; simpl; [reflexivity|].
  destruct (Q a) eqn:Eq; simpl.
  - rewrite IH. reflexivity.
  - destruct (P a) eqn:Ep; [|exact IH].
    rewrite (HPQ a Ep) in Eq. discriminate.
Qed.

Lemma filter_in_filter {A : Type} (P Q : A -> bool) (l : list A) :
  (forall x, P x = true -> Q x = true) ->
  List.filter P (List.filter Q l) = List.filter P l.
Proof.
  intros HPQ. induction l as [|a l IH]; simpl; [reflexivity|].
  destruct (Q a) eqn:Eq; simpl.
  - rewrite IH. reflexivity.
  - destruct (P a) eqn:Ep; [|exact IH].
    rewrite (HPQ a Ep) in Eq. discriminate.
Qed.

Lemma findProgress_of_user db uid pid :
  findProgress (UserProgresses db) uid pid
  = List.find (matchesKey uid pid) (progressOfUser db uid).
Proof.
  unfold findProgress, progressOfUser. symmetry. apply find_in_filter.
  intros x H. apply andb_true_iff in H as [H _]. exact H.
Qed.

Lemma previousProgress_of_user db uid (previous : IPuzzle) :
  previousProgress db uid previous
  = List.find (fun p => String.eqb (userId p) uid
                        && String.eqb (puzzleId p) (pz_id previous)
                        && isCompleted p)
              (progressOfUser db uid).
Proof.
  unfold previousProgress, progressOfUser. symmetry. apply find_in_filter.
  intros x H. apply andb_true_iff in H as [H _].
  apply andb_true_iff in H as [H _]. exact H.
Qed.

Lemma countCreatedSince_of_user db uid (since : Date) :
  countCreatedSince db uid since
  = Z.of_nat (List.length
      (List.filter (fun p => String.eqb (userId p) uid && (since <=? createdAt p))
                   (progressOfUser db uid))).
Proof.
  unfold countCreatedSince, progressOfUser. rewrite filter_in_filter;
    [reflexivity|].
  intros x H. apply andb_true_iff in H as [H _]. exact H.
Qed.

(** The fetch, the listing and the read of one record look at the catalog,
    the users and the requesting user's own records, and at nothing else. *)
Lemma reads_depend_on_own_records db db' uid :
  Puzzles db' = Puzzles db ->
  Users db' = Users db ->
  progressOfUser db' uid = progressOfUser db uid ->
  (forall now id, getPuzzle db' now uid id = getPuzzle db now uid id)
  /\ listPuzzles db' uid = listPuzzles db uid
  /\ (forall pid, getProgress db' uid pid = getProgress db uid pid).
Proof.
  intros Hp Hu Hr.
  assert (Hfind : forall pid, findProgress (UserProgresses db') uid pid
                              = findProgress (UserProgresses db) uid pid).
  { intros pid. rewrite !findProgress_of_user, Hr. reflexivity. }
  assert (Hlock : forall puzzle, levelLocked db' uid puzzle
                                 = levelLocked db uid puzzle).
  { intros puzzle. unfold levelLocked, previousPuzzle. rewrite Hp.
    destruct (1 <? levelOrder puzzle); [|reflexivity].
    destruct (List.find _ (Puzzles db)) as [previous|]; [|reflexivity].
    rewrite !previousProgress_of_user, Hr. reflexivity. }
  split; [|split].
  - intros now id. unfold getPuzzle, findActivePuzzle, findUser,
      puzzlesStartedToday.
    rewrite Hp, Hu. destruct (List.find _ (Puzzles db)) as [puzzle|];
      [|reflexivity].
    rewrite Hlock, Hfind, !countCreatedSince_of_user, Hr. reflexivity.
  - unfold listPuzzles, puzzlesWithStatus, activePuzzles.
    rewrite Hp, Hr. reflexivity.
  - intros pid. unfold getProgress. rewrite Hfind. reflexivity.
Qed.

Lemma findOneAndUpdate_other_user coll stamp fresh uid pid pieces done doneAt
    uid' :
  uid' <> uid ->
  List.filter (fun p => String.eqb (userId p) uid')
              (fst (findOneAndUpdate coll stamp fresh uid pid pieces done doneAt))
  = List.filter (fun p => String.eqb (userId p) uid') coll.
Proof.
  intros Hne. induction coll as [|q coll IH]; simpl.
  - destruct (String.eqb_spec uid uid'); [congruence | reflexivity].
  - destruct (matchesKey uid pid q) eqn:E; simpl.
    + apply matchesKey_spec in E. injection E as Hq _.
      rewrite Hq. destruct (String.eqb_spec uid uid'); [congruence | reflexivity].
    + destruct (findOneAndUpdate coll stamp fresh uid pid pieces done doneAt).
      simpl in *. rewrite IH. reflexivity.
Qed.

Lemma findOneAndDelete_other_user coll uid pid uid' :
  uid' <> uid ->
  List.filter (fun p => String.eqb (userId p) uid')
              (findOneAndDelete coll uid pid)
  = List.filter (fun p => String.eqb (userId p) uid') coll.
Proof.
  intros Hne. induction coll as [|q coll IH]; simpl; [reflexivity|].
  destruct (matchesKey uid pid q) eqn:E; simpl.
  - apply matchesKey_spec in E. injection E as Hq _.
    rewrite Hq. destruct (String.eqb_spec uid uid'); [congruence | reflexivity].
  - rewrite IH. reflexivity.
Qed.

(** X1.  Whatever one user requests (a listing, a fetch, a read, a save
    or a reset), every other user gets the same answers afterwards as
    before: the same fetch reply at every instant, the same listing, the
    same record read back. *)
Theorem requests_leave_other_users_alone db (r : Request) uid' :
  uid' <> requester r ->
  let db' := fst (handle db r) in
  (forall now id, getPuzzle db' now uid' id = getPuzzle db now uid' id)
  /\ listPuzzles db' uid' = listPuzzles db uid'
  /\ (forall pid, getProgress db' uid' pid = getProgress db uid' pid).
Proof.
  intros Hne db'. apply reads_depend_on_own_records; subst db'.
  - destruct r as [| | |now stamp fresh uid pid validation|uid pid];
      try reflexivity.
    apply putProgress_catalog.
  - destruct r as [| | |now stamp fresh uid pid validation|uid pid];
      try reflexivity.
    apply putProgress_catalog.
  - destruct r as [| | |now stamp fresh uid pid validation|uid pid];
      simpl in *; try reflexivity.
    + unfold putProgress. destruct validation as [pieces|]; [|reflexivity].
      destruct (findPuzzleById db pid) as [puzzle|]; [|reflexivity].
      pose proof (findOneAndUpdate_other_user (UserProgresses db) stamp fresh
                    uid pid pieces
                    (gridRows puzzle * gridCols puzzle
                     <=? Z.of_nat (List.length pieces))
                    (if gridRows puzzle * gridCols puzzle
                        <=? Z.of_nat (List.length pieces)
                     then Some now else None) uid' Hne) as H.
      destruct (findOneAndUpdate _ _ _ _ _ _ _ _). exact H.
    + unfold progressOfUser. simpl.
      apply findOneAndDelete_other_user. exact Hne.
Qed.

Lemma requests_leave_other_users_alone_witness :
  "u2" <> requester (PutProgress Example.noon Example.noon "r1" "u1" "a1"
                                 (Some Example.fourPieces))
  /\ listPuzzles
       (fst (handle Example.db0
                    (PutProgress Example.noon Example.noon "r1" "u1" "a1"
                                 (Some Example.fourPieces)))) "u2"
     = listPuzzles Example.db0 "u2".
Proof.
  assert (Hne : "u2" <> requester (PutProgress Example.noon Example.noon "r1"
                                     "u1" "a1" (Some Example.fourPieces)))
    by discriminate.
  split; [exact Hne|].
  apply (requests_leave_other_users_alone Example.db0 _ "u2" Hne).
Defined.

End Isolation.

(** ** The listing as a whole *)

Section ListingShape.

Implicit Types (db : Db) (uid pid : ObjectId) (puzzle pz : IPuzzle)
  (p : IUserProgress) (l : list IPuzzle).

Lemma insertByOrder_Permutation x l : Permutation (insertByOrder x l) (x :: l).
Proof.
  induction l as [|y l IH]; simpl; [reflexivity|].
  destruct (levelOrder x <=? levelOrder y); [reflexivity|].
  rewrite IH. apply perm_swap.
Qed.

Lemma sortByOrder_Permutation l : Permutation (sortByOrder l) l.
Proof.
  induction l as [|x l IH]; simpl; [reflexivity|].
  rewrite insertByOrder_Permutation, IH. reflexivity.
Qed.

Lemma insertByOrder_sorted x l :
  StronglySorted orderLe l -> StronglySorted orderLe (insertByOrder x l).
Proof.
  induction l as [|y l IH]; simpl; intros Hs.
  - repeat constructor.
  - inversion Hs as [|? ? Hs' Hall]; subst.
    destruct (levelOrder x <=? levelOrder y) eqn:E.
    + apply Z.leb_le in E. constructor; [exact Hs|]. constructor; [exact E|].
      rewrite List.Forall_forall in *. intros z Hz. specialize (Hall z Hz).
      unfold orderLe in *. lia.
    + apply Z.leb_gt in E. constructor; [apply IH; exact Hs'|].
      rewrite List.Forall_forall in *. intros z Hz.
      apply insertByOrder_In in Hz as [->|Hz]; [unfold orderLe; lia | auto].
Qed.

Lemma sortByOrder_sorted l : StronglySorted orderLe (sortByOrder l).
Proof.
  induction l as [|x l IH]; simpl; [constructor|].
  apply insertByOrder_sorted, IH.
Qed.

(** Into a sorted list, an element no larger than all of it goes first. *)
Lemma insertByOrder_head x l :
  Forall (orderLe x) l -> insertByOrder x l = x :: l.
Proof.
  destruct l as [|y l]; simpl; [reflexivity|].
  intros H. inversion H as [|? ? Hxy _]; subst.
  unfold orderLe in Hxy. apply Z.leb_le in Hxy. rewrite Hxy. reflexivity.
Qed.

Lemma filter_insertByOrder (P : IPuzzle -> bool) x l :
  StronglySorted orderLe l ->
  List.filter P (insertByOrder x l)
  = if P x then insertByOrder x (List.filter P l) else List.filter P l.
Proof.
  induction l as [|y l IH]; intros Hs.
  - simpl. destruct (P x); reflexivity.
  - inversion Hs as [|? ? Hs' Hall]; subst. simpl.
    destruct (levelOrder x <=? levelOrder y) eqn:E.
    + simpl. destruct (P x); [|reflexivity].
      symmetry. apply (insertByOrder_head x (List.filter P (y :: l))).
      apply Z.leb_le in E. rewrite List.Forall_forall in *. intros z Hz.
      apply filter_In in Hz as [Hz _]. destruct Hz as [<-|Hz]; [exact E|].
      specialize (Hall z Hz). unfold orderLe in *. lia.
    + simpl. rewrite (IH Hs'). destruct (P y), (P x); simpl; try reflexivity.
      rewrite E. reflexivity.
Qed.

(** Removing documents from the sorted collection is sorting the
    collection without them. *)
Lemma filter_sortByOrder (P : IPuzzle -> bool) l :
  List.filter P (sortByOrder l) = sortByOrder (List.filter P l).
Proof.
  induction l as [|x l IH]; simpl; [reflexivity|].
  rewrite filter_insertByOrder by apply sortByOrder_sorted.
  rewrite IH. destruct (P x); reflexivity.
Qed.

(** X2.  The listing has one entry per active level of the catalog and
    no other, in ascending [levelOrder], whatever the order of the documents
    in the collection; an inactive level never appears in it. *)
Theorem listing_is_the_sorted_active_catalog db uid :
  List.map st_puzzle (puzzlesWithStatus db uid)
  = List.map view_of_puzzle (activePuzzles db)
  /\ StronglySorted orderLe (activePuzzles db)
  /\ Permutation (activePuzzles db) (List.filter isActive (Puzzles db))
  /\ (forall pz, In pz (activePuzzles db) -> isActive pz = true).
Proof.
  split; [|split; [|split]].
  - unfold puzzlesWithStatus. rewrite map_map. reflexivity.
  - apply sortByOrder_sorted.
  - apply sortByOrder_Permutation.
  - intros pz H. apply activePuzzles_In in H. tauto.
Qed.

End ListingShape.

(** ** The progress shown by the listing *)

Section ListingProgress.

Implicit Types (db : Db) (uid pid : ObjectId) (puzzle pz : IPuzzle)
  (p : IUserProgress) (coll : list IUserProgress).

Lemma find_app_first {A : Type} (P : A -> bool) (l1 l2 : list A) :
  List.find P (l1 ++ l2)
  = match List.find P l1 with
    | Some x => Some x
    | None => List.find P l2
    end.
Proof.
  induction l1 as [|a l1 IH]; simpl; [reflexivity|].
  destruct (P a); [reflexivity | exact IH].
Qed.

(** Two lists with the same members, of which at most one satisfies the
    predicate, give the same search result. *)
Lemma find_same_members {A : Type} (P : A -> bool) (l l' : list A) :
  (forall x, In x l <-> In x l') ->
  (forall a b, In a l -> In b l -> P a = true -> P b = true -> a = b) ->
  List.find P l = List.find P l'.
Proof.
  intros Hm Hu. destruct (List.find P l) as [x|] eqn:E.
  - apply find_some in E as [Hx Px].
    destruct (List.find P l') as [y|] eqn:E'.
    + apply find_some in E' as [Hy Py]. apply Hm in Hy.
      rewrite (Hu x y Hx Hy Px Py). reflexivity.
    + apply Hm in Hx. pose proof (find_none _ _ E' x Hx). congruence.
  - destruct (List.find P l') as [y|] eqn:E'; [|reflexivity].
    apply find_some in E' as [Hy Py]. apply Hm in Hy.
    pose proof (find_none _ _ E y Hy). congruence.
Qed.

Lemma uniqueIndex_inj coll p q :
  uniqueIndex coll -> In p coll -> In q coll -> keyOf p = keyOf q -> p = q.
Proof.
  unfold uniqueIndex. induction coll as [|a coll IH]; simpl; [tauto|].
  intros Hu Hp Hq Hk. inversion Hu as [|? ? Ha Hu']; subst.
  rewrite list_elem_of_In in Ha.
  destruct Hp as [->|Hp], Hq as [->|Hq].
  - reflexivity.
  - destruct Ha. rewrite Hk. apply in_map. exact Hq.
  - destruct Ha. rewrite <- Hk. apply in_map. exact Hp.
  - auto.
Qed.

(** The map built by the listing answers a lookup with the last record of
    the list that carries the key. *)
Lemma progressMap_lookup_last (records : list IUserProgress) (k : ObjectId) :
  progressMap records !! k
  = List.find (fun p => String.eqb (puzzleId p) k) (List.rev records).
Proof.
  unfold progressMap.
  assert (H : forall (m : gmap string IUserProgress),
             List.fold_left (fun m p => <[puzzleId p := p]> m) records m !! k
             = match List.find (fun p => String.eqb (puzzleId p) k)
                               (List.rev records) with
               | Some p => Some p
               | None => m !! k
               end).
  { induction records as [|a records IH]; intros m; simpl; [reflexivity|].
    rewrite IH, find_app_first.
    destruct (List.find _ (List.rev records)); [reflexivity|]. simpl.
    rewrite lookup_insert.
    destruct (String.eqb_spec (puzzleId a) k) as [->|Hne].
    - rewrite decide_True by reflexivity. reflexivity.
    - rewrite decide_False by exact Hne. reflexivity. }
  rewrite H. destruct (List.find _ (List.rev records)); [reflexivity|].
  apply lookup_empty.
Qed.

(** Under the unique index that record is the one [findOne] reads. *)
Lemma progressMap_lookup db uid pid :
  uniqueIndex (UserProgresses db) ->
  progressMap (progressOfUser db uid) !! pid
  = findProgress (UserProgresses db) uid pid.
Proof.
  intros Hu. rewrite progressMap_lookup_last, findProgress_of_user.
  transitivity (List.find (fun p => String.eqb (puzzleId p) pid)
                          (progressOfUser db uid)).
  - apply find_same_members.
    + intros x. symmetry. apply in_rev.
    + intros a b Ha Hb Pa Pb. rewrite <- in_rev in Ha, Hb.
      unfold progressOfUser in Ha, Hb.
      apply filter_In in Ha as [Ha Ua], Hb as [Hb Ub].
      apply String.eqb_eq in Ua, Ub, Pa, Pb.
      apply (uniqueIndex_inj _ _ _ Hu Ha Hb). unfold keyOf. congruence.
  - unfold progressOfUser, matchesKey. clear Hu.
    induction (UserProgresses db) as [|a l IH]; simpl; [reflexivity|].
    destruct (String.eqb (userId a) uid) eqn:E; simpl; [|exact IH].
    rewrite E. simpl.
    destruct (String.eqb (puzzleId a) pid); [reflexivity | exact IH].
Qed.

(** X3.  Under the unique index of the progress collection, each entry
    of a user's listing shows the record that GET /progress/:puzzleId reads
    for that user and that level: its completion flag, its placed pieces and
    its completion time, and "not completed, no progress" when there is
    none. *)
Theorem listing_shows_stored_progress db uid :
  uniqueIndex (UserProgresses db) ->
  puzzlesWithStatus db uid
  = List.map
      (fun puzzle =>
         let progress := findProgress (UserProgresses db) uid (pz_id puzzle) in
         mkPuzzleStatus
           (view_of_puzzle puzzle)
           (listedUnlocked db uid puzzle)
           (match progress with Some p => isCompleted p | None => false end)
           (option_map (fun p => (placedPieceIds p, completedAt p)) progress))
      (activePuzzles db).
Proof.
  intros Hu. unfold puzzlesWithStatus. apply map_ext. intros puzzle.
  rewrite (progressMap_lookup _ _ _ Hu). reflexivity.
Qed.

Lemma listing_shows_stored_progress_witness :
  uniqueIndex (UserProgresses Example.dbDoneA)
  /\ List.map st_isCompleted (puzzlesWithStatus Example.dbDoneA "u1")
     = [true; false; false].
Proof.
  assert (Hu : uniqueIndex (UserProgresses Example.dbDoneA)).
  { unfold uniqueIndex. simpl. apply NoDup_singleton. }
  split; [exact Hu|].
  rewrite (listing_shows_stored_progress Example.dbDoneA "u1" Hu).
  reflexivity.
Defined.

End ListingProgress.

(** ** How saves and resets move the lock *)

Section LockDynamics.

Implicit Types (db : Db) (uid pid id fresh : ObjectId) (now stamp : Date)
  (puzzle previous : IPuzzle) (p : IUserProgress) (pieces : list string).

Lemma levelLocked_false_predecessor db uid puzzle previous :
  1 < levelOrder puzzle ->
  previousPuzzle db puzzle = Some previous ->
  (levelLocked db uid puzzle = false <-> hasCompleted db uid previous).
Proof.
  intros Hgt Hprev. unfold levelLocked. rewrite Hprev.
  apply Z.ltb_lt in Hgt. rewrite Hgt.
  rewrite <- previousProgress_hasCompleted.
  destruct (previousProgress db uid previous) as [q|].
  - split; eauto.
  - split; [discriminate | intros [q Hq]; discriminate].
Qed.

(** X4.  With identifiers and orders unique among the active levels, and
    orders at least 1 as the schema requires, the listing flags a level
    unlocked exactly when the fetch lets it through the lock check and the
    level is the first one or has an active level just below it.  So the
    listing never shows as unlocked a level the fetch refuses, and the two
    differ only at a gap in the orders. *)
Theorem listing_flag_agrees_with_fetch_except_at_gaps db uid puzzle :
  uniqueOn pz_id (List.filter isActive (Puzzles db)) ->
  uniqueOn levelOrder (List.filter isActive (Puzzles db)) ->
  1 <= levelOrder puzzle ->
  (listedUnlocked db uid puzzle = true
   <-> levelLocked db uid puzzle = false
       /\ (levelOrder puzzle = 1 \/ previousPuzzle db puzzle <> None)).
Proof.
  intros Uid Uord Hge.
  destruct (Z.eq_dec (levelOrder puzzle) 1) as [H1|Hn1].
  - split.
    + intros _. split; [|left; exact H1].
      unfold levelLocked. rewrite H1. reflexivity.
    + intros _. apply listedUnlocked_true. left. exact H1.
  - assert (Hgt : 1 < levelOrder puzzle) by lia.
    destruct (previousPuzzle db puzzle) as [previous|] eqn:Hprev.
    + rewrite (listedUnlocked_predecessor db uid puzzle previous Uid Uord Hgt Hprev).
      rewrite (levelLocked_false_predecessor db uid puzzle previous Hgt Hprev).
      split; [intros H; split; [exact H | right; discriminate] | tauto].
    + rewrite (listedUnlocked_gap db uid puzzle Hn1 Hprev).
      split; [discriminate | intros [_ [H|H]]; [contradiction | congruence]].
Qed.

Lemma uniqueOn_example_ids :
  uniqueOn pz_id (List.filter isActive (Puzzles Example.dbDoneA)).
Proof.
  intros a b Ha Hb. simpl in Ha, Hb.
  destruct Ha as [<-|[<-|[<-|[]]]], Hb as [<-|[<-|[<-|[]]]];
    solve [reflexivity | discriminate].
Qed.

Lemma uniqueOn_example_orders :
  uniqueOn levelOrder (List.filter isActive (Puzzles Example.dbDoneA)).
Proof.
  intros a b Ha Hb. simpl in Ha, Hb.
  destruct Ha as [<-|[<-|[<-|[]]]], Hb as [<-|[<-|[<-|[]]]];
    solve [reflexivity | discriminate].
Qed.

Lemma listing_flag_agrees_with_fetch_except_at_gaps_witness :
  1 <= levelOrder Example.levelB
  /\ (listedUnlocked Example.dbDoneA "u1" Example.levelB = true
      <-> levelLocked Example.dbDoneA "u1" Example.levelB = false
          /\ (levelOrder Example.levelB = 1
              \/ previousPuzzle Example.dbDoneA Example.levelB <> None)).
Proof.
  split; [vm_compute; discriminate|].
  apply (listing_flag_agrees_with_fetch_except_at_gaps Example.dbDoneA "u1"
           Example.levelB uniqueOn_example_ids uniqueOn_example_orders).
  vm_compute. discriminate.
Defined.

(** After a save the only record under its key is the one just written. *)
Lemma putProgress_only_record db now stamp fresh uid pid pieces puzzle q :
  uniqueIndex (UserProgresses db) ->
  findPuzzleById db pid = Some puzzle ->
  In q (UserProgresses (fst (putProgress db now stamp fresh uid pid
                                         (Some pieces)))) ->
  userId q = uid -> puzzleId q = pid ->
  isCompleted q = reachesTotal puzzle pieces.
Proof.
  intros Hu Hpz Hin Hqu Hqp.
  destruct (putProgress_stored db now stamp fresh uid pid pieces puzzle Hpz)
    as (p & Hf & _ & _ & Hd & _).
  pose proof (handle_unique db (PutProgress now stamp fresh uid pid (Some pieces))
                Hu) as Hu'. simpl in Hu'.
  apply findProgress_Some in Hf as (Hpin & Hpu & Hpp).
  assert (q = p) as ->; [|exact Hd].
  apply (uniqueIndex_inj _ _ _ Hu' Hin Hpin). unfold keyOf. congruence.
Qed.

(** X5.  Under the unique index, once a user saves a level, the level
    just above it is locked for that user exactly when the saved list is
    below rows x cols entries: a completing save unlocks the next level, and
    a later save of fewer pieces locks it again. *)
Theorem save_decides_lock_of_next_level db now stamp fresh uid pieces
    previous puzzle :
  uniqueIndex (UserProgresses db) ->
  findPuzzleById db (pz_id previous) = Some previous ->
  1 < levelOrder puzzle ->
  previousPuzzle db puzzle = Some previous ->
  levelLocked (fst (putProgress db now stamp fresh uid (pz_id previous)
                                (Some pieces))) uid puzzle
  = negb (reachesTotal previous pieces).
Proof.
  intros Hu Hpz Hgt Hprev.
  set (db' := fst (putProgress db now stamp fresh uid (pz_id previous)
                               (Some pieces))).
  assert (Hprev' : previousPuzzle db' puzzle = Some previous).
  { unfold previousPuzzle, db'.
    rewrite (proj1 (putProgress_catalog db now stamp fresh uid (pz_id previous)
                                        (Some pieces))). exact Hprev. }
  destruct (reachesTotal previous pieces) eqn:E; simpl.
  - apply (levelLocked_false_predecessor db' uid puzzle previous Hgt Hprev').
    destruct (putProgress_stored db now stamp fresh uid (pz_id previous) pieces
                previous Hpz) as (p & Hf & _ & _ & Hd & _).
    apply findProgress_Some in Hf as (Hin & Hpu & Hpp).
    exists p. rewrite Hd, E. auto.
  - apply levelLocked_true. split; [exact Hgt|]. exists previous.
    split; [exact Hprev'|]. intros (q & Hin & Hqu & Hqp & Hc).
    rewrite (putProgress_only_record db now stamp fresh uid (pz_id previous)
               pieces previous q Hu Hpz Hin Hqu Hqp) in Hc.
    congruence.
Qed.

Lemma save_decides_lock_of_next_level_witness :
  uniqueIndex (UserProgresses Example.dbPlayed)
  /\ findPuzzleById Example.dbPlayed "a1" = Some Example.levelA
  /\ previousPuzzle Example.dbPlayed Example.levelB = Some Example.levelA
  /\ levelLocked Example.dbPlayed "u1" Example.levelB = true
  /\ levelLocked
       (fst (putProgress Example.dbPlayed (Example.noon + 5) (Example.noon + 6)
                         "r2" "u1" "a1" (Some Example.fourPieces)))
       "u1" Example.levelB
     = false.
Proof.
  assert (Hu : uniqueIndex (UserProgresses Example.dbPlayed)).
  { unfold uniqueIndex. simpl. apply NoDup_singleton. }
  split; [exact Hu|]. do 3 (split; [reflexivity|]).
  apply (save_decides_lock_of_next_level Example.dbPlayed (Example.noon + 5)
           (Example.noon + 6) "r2" "u1" Example.fourPieces Example.levelA
           Example.levelB Hu eq_refl eq_refl eq_refl).
Defined.

(** X6.  Under the unique index, resetting a level locks the level just
    above it for that user, whatever had been saved. *)
Theorem reset_locks_next_level db uid previous puzzle :
  uniqueIndex (UserProgresses db) ->
  1 < levelOrder puzzle ->
  previousPuzzle db puzzle = Some previous ->
  levelLocked (fst (deleteProgress db uid (pz_id previous))) uid puzzle = true.
Proof.
  intros Hu Hgt Hprev. apply levelLocked_true. split; [exact Hgt|].
  exists previous. split; [exact Hprev|].
  intros (q & Hin & Hqu & Hqp & _). simpl in Hin.
  pose proof (findOneAndDelete_lookup (UserProgresses db) uid (pz_id previous)
                Hu) as Hnone.
  apply findProgress_None in Hnone. apply Hnone.
  apply in_map_iff. exists q. split; [|exact Hin].
  unfold keyOf. congruence.
Qed.

Lemma reset_locks_next_level_witness :
  uniqueIndex (UserProgresses Example.dbDoneA)
  /\ previousPuzzle Example.dbDoneA Example.levelB = Some Example.levelA
  /\ levelLocked Example.dbDoneA "u1" Example.levelB = false
  /\ levelLocked (fst (deleteProgress Example.dbDoneA "u1" "a1")) "u1"
                 Example.levelB = true.
Proof.
  assert (Hu : uniqueIndex (UserProgresses Example.dbDoneA)).
  { unfold uniqueIndex. simpl. apply NoDup_singleton. }
  split; [exact Hu|]. do 2 (split; [reflexivity|]).
  apply (reset_locks_next_level Example.dbDoneA "u1" Example.levelA
           Example.levelB Hu eq_refl eq_refl).
Defined.

End LockDynamics.

(** ** How saves use up the daily quota *)

Section QuotaDynamics.

Implicit Types (db : Db) (uid pid id fresh : ObjectId) (now stamp : Date)
  (puzzle : IPuzzle) (p : IUserProgress) (pieces : list string).

Lemma countCreatedSince_pos db uid (since : Date) p :
  In p (UserProgresses db) -> userId p = uid -> since <= createdAt p ->
  1 <= countCreatedSince db uid since.
Proof.
  intros Hin Hu Hc. unfold countCreatedSince.
  assert (H : In p (List.filter
                      (fun p => String.eqb (userId p) uid
                                && (since <=? createdAt p))
                      (UserProgresses db))).
  { apply filter_In. split; [exact Hin|].
    apply andb_true_iff. split; [apply String.eqb_eq; exact Hu|].
    apply Z.leb_le. exact Hc. }
  destruct (List.filter _ (UserProgresses db)); [destruct H | simpl; lia].
Qed.

Lemma countCreatedSince_zero db uid (since : Date) :
  (forall p, In p (UserProgresses db) -> userId p = uid -> createdAt p < since) ->
  countCreatedSince db uid since = 0.
Proof.
  intros H. unfold countCreatedSince.
  destruct (List.filter _ (UserProgresses db)) as [|q l] eqn:E; [reflexivity|].
  assert (Hq : In q (q :: l)) by (left; reflexivity).
  rewrite <- E in Hq. apply filter_In in Hq as [Hin Hm].
  apply andb_true_iff in Hm as [Hu Hc].
  apply String.eqb_eq in Hu. apply Z.leb_le in Hc.
  specialize (H q Hin Hu). lia.
Qed.

(** X7.  The first save of a free user on a level (no record of theirs on
    it before) uses up the quota of the UTC day of that save: at any instant
    whose start of day is not after the save, the fetch of any other level
    that is found, unlocked and without a record for the user is denied with
    "daily_limit".  The quota is per day: at an instant whose start of day
    lies after every record of the user, that fetch is answered with the
    level. *)
Theorem first_save_uses_up_the_day db now0 stamp fresh uid pid pieces started :
  tierOrFree (findUser db uid) = "free" ->
  findPuzzleById db pid = Some started ->
  findProgress (UserProgresses db) uid pid = None ->
  let db' := fst (putProgress db now0 stamp fresh uid pid (Some pieces)) in
  forall now id puzzle,
    findActivePuzzle db id = Some puzzle ->
    levelLocked db' uid puzzle = false ->
    pz_id puzzle <> pid ->
    findProgress (UserProgresses db) uid (pz_id puzzle) = None ->
    (setUTCHours0 now <= stamp ->
     getPuzzle db' now uid id = Err 403 "daily_limit")
    /\ ((forall p, In p (UserProgresses db') -> userId p = uid ->
                   createdAt p < setUTCHours0 now) ->
        getPuzzle db' now uid id
        = Json (PuzzleBody (view_of_puzzle puzzle) None)).
Proof.
  intros Ht Hpz Hnew db' now id puzzle Hf Hl Hne Hnone.
  destruct (putProgress_catalog db now0 stamp fresh uid pid (Some pieces))
    as [Hcat Husers]. fold db' in Hcat, Husers.
  assert (Hf' : findActivePuzzle db' id = Some puzzle).
  { unfold findActivePuzzle. rewrite Hcat. exact Hf. }
  assert (Hnone' : findProgress (UserProgresses db') uid (pz_id puzzle) = None).
  { unfold db'. rewrite (putProgress_found _ _ _ _ _ _ _ _ Hpz). simpl.
    rewrite findOneAndUpdate_frame; [exact Hnone | congruence]. }
  assert (Ht' : tierOrFree (findUser db' uid) = "free").
  { unfold findUser. rewrite Husers. exact Ht. }
  rewrite (getPuzzle_unlocked _ _ _ _ _ Hf' Hl). cbv zeta.
  rewrite Ht', Hnone'. simpl. unfold puzzlesStartedToday. split.
  - intros Hday.
    destruct (putProgress_stored db now0 stamp fresh uid pid pieces started Hpz)
      as (p & Hp & _ & _ & _ & _ & _ & Hc & _).
    fold db' in Hp. rewrite Hnew in Hc.
    apply findProgress_Some in Hp as (Hin & Hu & _).
    assert (Hcount : 1 <= countCreatedSince db' uid (setUTCHours0 now)).
    { apply (countCreatedSince_pos db' uid _ p Hin Hu). lia. }
    apply Z.leb_le in Hcount. rewrite Hcount. reflexivity.
  - intros Hold. rewrite (countCreatedSince_zero db' uid _ Hold). reflexivity.
Qed.

Lemma first_save_uses_up_the_day_witness :
  tierOrFree (findUser Example.db0 "u1") = "free"
  /\ findProgress (UserProgresses Example.db0) "u1" "a1" = None
  /\ getPuzzle
       (fst (putProgress Example.db0 Example.noon Example.noon "r1" "u1" "a1"
                         (Some Example.fourPieces)))
       (Example.noon + 5) "u1" "b2"
     = Err 403 "daily_limit".
Proof.
  do 2 (split; [reflexivity|]).
  apply (first_save_uses_up_the_day Example.db0 Example.noon Example.noon "r1"
           "u1" "a1" Example.fourPieces Example.levelA eq_refl eq_refl eq_refl
           (Example.noon + 5) "b2" Example.levelB eq_refl eq_refl).
  - discriminate.
  - reflexivity.
  - vm_compute. discriminate.
Defined.

End QuotaDynamics.

(** ** Deleting a level *)

Section AdminDelete.

Implicit Types (db : Db) (uid pid id : ObjectId) (puzzle previous pz : IPuzzle)
  (p : IUserProgress) (coll : list IUserProgress).

Lemma findPuzzleById_Some db id pz :
  findPuzzleById db id = Some pz -> In pz (Puzzles db) /\ pz_id pz = id.
Proof.
  intros H. apply find_some in H as [Hin Hid]. apply String.eqb_eq in Hid. auto.
Qed.

Lemma deleteOneById_In (puzzles : list IPuzzle) id pz :
  In pz (deleteOneById puzzles id) -> In pz puzzles.
Proof.
  induction puzzles as [|a l IH]; simpl; [tauto|].
  destruct (String.eqb (pz_id a) id); simpl; tauto.
Qed.

Lemma deleteOneById_keeps (puzzles : list IPuzzle) id pz :
  In pz puzzles -> pz_id pz <> id -> In pz (deleteOneById puzzles id).
Proof.
  induction puzzles as [|a l IH]; simpl; [tauto|].
  intros [->|Hin] Hne.
  - destruct (String.eqb_spec (pz_id pz) id); [contradiction | left; reflexivity].
  - destruct (String.eqb (pz_id a) id); [exact Hin | right; auto].
Qed.

(** Deleting one document leaves the search for any other identifier as
    it was. *)
Lemma deleteOneById_find_other (puzzles : list IPuzzle) id id' :
  id' <> id ->
  List.find (fun pz => String.eqb (pz_id pz) id') (deleteOneById puzzles id)
  = List.find (fun pz => String.eqb (pz_id pz) id') puzzles.
Proof.
  intros Hne. induction puzzles as [|a l IH]; simpl; [reflexivity|].
  destruct (String.eqb_spec (pz_id a) id) as [Ha|Ha]; simpl.
  - destruct (String.eqb_spec (pz_id a) id'); [congruence | reflexivity].
  - rewrite IH. reflexivity.
Qed.

(** With identifiers that do not repeat, the deleted identifier is gone. *)
Lemma deleteOneById_gone (puzzles : list IPuzzle) id pz :
  NoDup (List.map pz_id puzzles) ->
  In pz (deleteOneById puzzles id) -> pz_id pz <> id.
Proof.
  induction puzzles as [|a l IH]; simpl; [tauto|].
  intros Hnd Hin. inversion Hnd as [|? ? Ha Hnd']; subst.
  rewrite list_elem_of_In in Ha.
  destruct (String.eqb_spec (pz_id a) id) as [Hid|Hid].
  - intros Heq. apply Ha. rewrite Hid, <- Heq. apply in_map. exact Hin.
  - destruct Hin as [<-|Hin]; [exact Hid | auto].
Qed.

Lemma deleteManyByPuzzle_In coll pid p :
  In p (deleteManyByPuzzle coll pid) <-> In p coll /\ puzzleId p <> pid.
Proof.
  unfold deleteManyByPuzzle. rewrite filter_In, negb_true_iff.
  split; intros [H1 H2]; (split; [exact H1|]).
  - apply String.eqb_neq. exact H2.
  - apply String.eqb_neq. exact H2.
Qed.

Lemma NoDup_map_filter {A B : Type} (f : A -> B) (P : A -> bool) (l : list A) :
  NoDup (List.map f l) -> NoDup (List.map f (List.filter P l)).
Proof.
  induction l as [|a l IH]; simpl; [auto|].
  intros Hnd. inversion Hnd as [|? ? Ha Hnd']; subst.
  destruct (P a); simpl; [|auto].
  constructor; [|auto].
  rewrite list_elem_of_In in *. intros Hin. apply Ha.
  apply in_map_iff in Hin as (x & Hx & Hin). apply filter_In in Hin as [Hin _].
  rewrite <- Hx. apply in_map. exact Hin.
Qed.

(** X8.  Deleting a level that exists removes every user's record on it
    and nothing else from the progress collection, keeps the unique index
    and the users, and leaves every other level where it was; with
    identifiers that do not repeat the level is gone: fetching it answers
    404.  Deleting a level that does not exist answers 404 and changes
    nothing. *)
Theorem admin_delete_cascades db id :
  (findPuzzleById db id = None ->
   adminDeletePuzzle db id = (db, Err 404 "Puzzle not found"))
  /\ (forall puzzle,
        findPuzzleById db id = Some puzzle ->
        let db' := fst (adminDeletePuzzle db id) in
        snd (adminDeletePuzzle db id)
        = Json (MessageBody "Puzzle deleted successfully")
        /\ (forall p, In p (UserProgresses db')
                      <-> In p (UserProgresses db) /\ puzzleId p <> id)
        /\ (forall uid, getProgress db' uid id = Json (ProgressBody None))
        /\ (uniqueIndex (UserProgresses db) -> uniqueIndex (UserProgresses db'))
        /\ Users db' = Users db
        /\ (forall id', id' <> id ->
                        findPuzzleById db' id' = findPuzzleById db id')
        /\ (NoDup (List.map pz_id (Puzzles db)) ->
            findPuzzleById db' id = None
            /\ forall now uid,
                 getPuzzle db' now uid id = Err 404 "Puzzle not found")).
Proof.
  split.
  - intros H. unfold adminDeletePuzzle. rewrite H. reflexivity.
  - intros puzzle Hf db'. subst db'. unfold adminDeletePuzzle. rewrite Hf.
    destruct (findPuzzleById_Some _ _ _ Hf) as [Hin Hid]. rewrite Hid. simpl.
    split; [reflexivity|]. split; [apply deleteManyByPuzzle_In|].
    split; [|split; [|split; [reflexivity|split]]].
    + intros uid. unfold getProgress. simpl.
      assert (H : findProgress (deleteManyByPuzzle (UserProgresses db) id) uid id
                  = None); [|rewrite H; reflexivity].
      apply findProgress_None. intros Hk.
      apply in_map_iff in Hk as (q & Hq & Hqin).
      apply deleteManyByPuzzle_In in Hqin as [_ Hne].
      unfold keyOf in Hq. congruence.
    + unfold uniqueIndex, deleteManyByPuzzle. apply NoDup_map_filter.
    + intros id' Hne. unfold findPuzzleById. simpl.
      apply deleteOneById_find_other. exact Hne.
    + intros Hnd.
      assert (Hgone : findPuzzleById
                        (mkDb (deleteOneById (Puzzles db) id)
                              (deleteManyByPuzzle (UserProgresses db) id)
                              (Users db)) id = None).
      { unfold findPuzzleById. simpl.
        destruct (List.find _ (deleteOneById (Puzzles db) id)) as [pz|] eqn:E;
          [|reflexivity].
        apply find_some in E as [Hpz Hpid]. apply String.eqb_eq in Hpid.
        destruct (deleteOneById_gone _ _ _ Hnd Hpz Hpid). }
      split; [exact Hgone|]. intros now uid. apply getPuzzle_missing.
      apply findActivePuzzle_None. simpl. intros pz Hpz Hpid.
      destruct (deleteOneById_gone _ _ _ Hnd Hpz Hpid).
Qed.

Lemma NoDup_example_ids : NoDup (List.map pz_id (Puzzles Example.dbDoneA)).
Proof.
  apply (bool_decide_unpack _). vm_compute. exact I.
Qed.

Lemma admin_delete_cascades_witness :
  findPuzzleById Example.dbDoneA "a1" = Some Example.levelA
  /\ UserProgresses (fst (adminDeletePuzzle Example.dbDoneA "a1")) = []
  /\ getPuzzle (fst (adminDeletePuzzle Example.dbDoneA "a1")) Example.noon "u1"
               "a1"
     = Err 404 "Puzzle not found".
Proof.
  split; [reflexivity|]. split; [reflexivity|].
  destruct (admin_delete_cascades Example.dbDoneA "a1") as [_ H].
  destruct (H Example.levelA eq_refl) as (_ & _ & _ & _ & _ & _ & Hgone).
  apply (Hgone NoDup_example_ids).
Defined.

(** X9.  With identifiers that do not repeat and orders unique among the
    active levels, deleting the active level just below a level leaves
    nothing active below it, so the fetch lets every user through the lock
    check of that level from then on. *)
Theorem admin_delete_opens_next_level db id previous puzzle :
  NoDup (List.map pz_id (Puzzles db)) ->
  uniqueOn levelOrder (List.filter isActive (Puzzles db)) ->
  findPuzzleById db id = Some previous ->
  previousPuzzle db puzzle = Some previous ->
  let db' := fst (adminDeletePuzzle db id) in
  previousPuzzle db' puzzle = None
  /\ forall uid, levelLocked db' uid puzzle = false.
Proof.
  intros Hnd Uord Hf Hprev db'.
  assert (Hgap : previousPuzzle db' puzzle = None).
  { subst db'. unfold adminDeletePuzzle. rewrite Hf.
    destruct (findPuzzleById_Some _ _ _ Hf) as [Hin Hid]. rewrite Hid.
    apply previousPuzzle_None. simpl. intros pz Hpz Hact Ho.
    pose proof (deleteOneById_gone _ _ _ Hnd Hpz) as Hne.
    apply deleteOneById_In in Hpz.
    apply previousPuzzle_Some in Hprev as (Hpin & Hpo & Hpact).
    assert (pz = previous); [|congruence].
    apply Uord; [apply filter_In; auto | apply filter_In; auto | congruence]. }
  split; [exact Hgap|]. intros uid. apply levelLocked_gap. exact Hgap.
Qed.

Lemma admin_delete_opens_next_level_witness :
  findPuzzleById Example.dbDoneA "a1" = Some Example.levelA
  /\ previousPuzzle Example.dbDoneA Example.levelB = Some Example.levelA
  /\ levelLocked Example.dbDoneA "u2" Example.levelB = true
  /\ levelLocked (fst (adminDeletePuzzle Example.dbDoneA "a1")) "u2"
                 Example.levelB = false.
Proof.
  do 3 (split; [reflexivity|]).
  apply (admin_delete_opens_next_level Example.dbDoneA "a1" Example.levelA
           Example.levelB NoDup_example_ids uniqueOn_example_orders eq_refl
           eq_refl).
Defined.

(** X10.  The administrator's list holds every level of the catalog,
    active or not, in ascending [levelOrder]; a user's listing is that list
    with the inactive levels left out, in the same order. *)
Theorem admin_list_and_player_list db uid :
  StronglySorted orderLe (adminListPuzzles db)
  /\ Permutation (adminListPuzzles db) (Puzzles db)
  /\ List.map st_puzzle (puzzlesWithStatus db uid)
     = List.map view_of_puzzle (List.filter isActive (adminListPuzzles db)).
Proof.
  split; [apply sortByOrder_sorted|]. split; [apply sortByOrder_Permutation|].
  unfold puzzlesWithStatus, adminListPuzzles, activePuzzles.
  rewrite map_map, filter_sortByOrder. reflexivity.
Qed.

End AdminDelete.

(** ** The progress records of a user and the levels they refer to *)

Section ProgressRecords.

Implicit Types (db : Db) (uid pid id : ObjectId) (p q : IUserProgress)
  (coll : list IUserProgress).

Lemma findOneAndUpdate_In coll stamp fresh uid pid pieces done doneAt q :
  In q (fst (findOneAndUpdate coll stamp fresh uid pid pieces done doneAt)) ->
  In q coll \/ puzzleId q = pid.
Proof.
  induction coll as [|a coll IH]; simpl.
  - intros [<-|[]]. right. reflexivity.
  - destruct (matchesKey uid pid a) eqn:E; simpl.
    + apply matchesKey_spec in E. injection E as _ Hp.
      intros [<-|Hin]; [right; exact Hp | left; right; exact Hin].
    + destruct (findOneAndUpdate coll stamp fresh uid pid pieces done doneAt).
      simpl in *. intros [<-|Hin]; [left; left; reflexivity|].
      destruct (IH Hin); [left; right; assumption | right; assumption].
Qed.

Lemma findOneAndDelete_In coll uid pid q :
  In q (findOneAndDelete coll uid pid) -> In q coll.
Proof.
  induction coll as [|a coll IH]; simpl; [tauto|].
  destruct (matchesKey uid pid a); simpl; tauto.
Qed.

(** A request of a player keeps every record attached to a level. *)
Lemma handle_refersToCatalog db (r : Request) :
  refersToCatalog db -> refersToCatalog (fst (handle db r)).
Proof.
  intros Href. destruct r as [| | |now stamp fresh uid pid validation|uid pid];
    simpl; try exact Href.
  - unfold putProgress. destruct validation as [pieces|]; [|exact Href].
    destruct (findPuzzleById db pid) as [puzzle|] eqn:Hpz; [|exact Href].
    pose proof (findOneAndUpdate_In (UserProgresses db) stamp fresh uid pid
                  pieces
                  (gridRows puzzle * gridCols puzzle
                   <=? Z.of_nat (List.length pieces))
                  (if gridRows puzzle * gridCols puzzle
                      <=? Z.of_nat (List.length pieces)
                   then Some now else None)) as Hin.
    destruct (findOneAndUpdate _ _ _ _ _ _ _ _) as [coll' doc].
    intros q Hq. simpl in Hq. unfold findPuzzleById. simpl.
    destruct (Hin q Hq) as [Hold| ->]; [apply Href; exact Hold|].
    exists puzzle. exact Hpz.
  - intros q Hq. simpl in Hq. apply findOneAndDelete_In in Hq.
    apply Href. exact Hq.
Qed.

(** So does the deletion of a level, which takes its records with it. *)
Lemma adminDeletePuzzle_refersToCatalog db id :
  refersToCatalog db -> refersToCatalog (fst (adminDeletePuzzle db id)).
Proof.
  intros Href. unfold adminDeletePuzzle.
  destruct (findPuzzleById db id) as [puzzle|] eqn:Hf; [|exact Href].
  destruct (findPuzzleById_Some _ _ _ Hf) as [_ Hid]. rewrite Hid.
  intros q Hq. simpl in Hq. apply deleteManyByPuzzle_In in Hq as [Hq Hne].
  unfold findPuzzleById. simpl. rewrite deleteOneById_find_other by exact Hne.
  apply Href. exact Hq.
Qed.

Lemma adminDeletePuzzle_unique db id :
  uniqueIndex (UserProgresses db) ->
  uniqueIndex (UserProgresses (fst (adminDeletePuzzle db id))).
Proof.
  intros Hu. unfold adminDeletePuzzle.
  destruct (findPuzzleById db id) as [puzzle|]; [|exact Hu].
  simpl. unfold uniqueIndex, deleteManyByPuzzle. apply NoDup_map_filter.
  exact Hu.
Qed.

(** X11.  If every progress record refers to a level of the catalog,
    this still holds after any request of a player and after the deletion
    of any level by an administrator.  The reply to GET /progress then lists
    the requesting user's records with each one's level filled in: no entry
    belongs to another user and none carries a null level. *)
Theorem progress_records_never_dangle db :
  refersToCatalog db ->
  (forall r, refersToCatalog (fst (handle db r)))
  /\ (forall id, refersToCatalog (fst (adminDeletePuzzle db id)))
  /\ (forall uid,
        List.map pr_id (progressRecords db uid)
        = List.map up_id (progressOfUser db uid)
        /\ List.map (fun e => option_map pp_id (pr_puzzleId e))
                    (progressRecords db uid)
           = List.map (fun p => Some (puzzleId p)) (progressOfUser db uid)
        /\ forall e, In e (progressRecords db uid) -> pr_userId e = uid).
Proof.
  intros Href. split; [|split].
  - intros r. apply handle_refersToCatalog. exact Href.
  - intros id. apply adminDeletePuzzle_refersToCatalog. exact Href.
  - intros uid. unfold progressRecords. rewrite !map_map. split; [reflexivity|].
    split.
    + apply map_ext_in. intros p Hp. unfold progressOfUser in Hp.
      apply filter_In in Hp as [Hp _]. simpl.
      destruct (Href p Hp) as [pz Hpz]. rewrite Hpz. simpl.
      apply findPuzzleById_Some in Hpz as [_ ->]. reflexivity.
    + intros e He. apply in_map_iff in He as (p & <- & Hp).
      unfold progressOfUser in Hp. apply filter_In in Hp as [_ Hu].
      apply String.eqb_eq in Hu. exact Hu.
Qed.

Lemma progress_records_never_dangle_witness :
  refersToCatalog Example.dbDoneA
  /\ List.map (fun e => option_map pp_id (pr_puzzleId e))
              (progressRecords Example.dbDoneA "u1")
     = [Some "a1"].
Proof.
  assert (Href : refersToCatalog Example.dbDoneA).
  { intros p [<-|[]]. exists Example.levelA. reflexivity. }
  split; [exact Href|].
  destruct (progress_records_never_dangle Example.dbDoneA Href) as (_ & _ & H).
  destruct (H "u1") as (_ & Hpop & _). rewrite Hpop. reflexivity.
Defined.

End ProgressRecords.

(** ** The subscription tier *)

Section Subscription.

Implicit Types (db : Db) (uid id : ObjectId) (u : IUser) (now : Date).

Lemma findByIdAndUpdateTier_found (users : list IUser) uid (tier : string) u :
  List.find (fun u => String.eqb (user_id u) uid) users = Some u ->
  snd (findByIdAndUpdateTier users uid tier) = Some (mkUser (user_id u) (Some tier))
  /\ List.find (fun u => String.eqb (user_id u) uid)
               (fst (findByIdAndUpdateTier users uid tier))
     = Some (mkUser (user_id u) (Some tier)).
Proof.
  induction users as [|a users IH]; simpl; [discriminate|].
  destruct (String.eqb (user_id a) uid) eqn:E.
  - intros [= ->]. simpl. rewrite E. auto.
  - intros H. specialize (IH H).
    destruct (findByIdAndUpdateTier users uid tier). simpl in *.
    rewrite E. exact IH.
Qed.

Lemma findByIdAndUpdateTier_missing (users : list IUser) uid (tier : string) :
  List.find (fun u => String.eqb (user_id u) uid) users = None ->
  findByIdAndUpdateTier users uid tier = (users, None).
Proof.
  induction users as [|a users IH]; simpl; [reflexivity|].
  destruct (String.eqb (user_id a) uid); [discriminate|].
  intros H. rewrite (IH H). reflexivity.
Qed.

Lemma findByIdAndUpdateTier_other (users : list IUser) uid (tier : string) uid' :
  uid' <> uid ->
  List.find (fun u => String.eqb (user_id u) uid')
            (fst (findByIdAndUpdateTier users uid tier))
  = List.find (fun u => String.eqb (user_id u) uid') users.
Proof.
  intros Hne. induction users as [|a users IH]; simpl; [reflexivity|].
  destruct (String.eqb_spec (user_id a) uid) as [Ha|Ha]; simpl.
  - destruct (String.eqb_spec (user_id a) uid'); [congruence | reflexivity].
  - destruct (findByIdAndUpdateTier users uid tier). simpl in *.
    rewrite IH. reflexivity.
Qed.

(** What a sync with an accepted body does for a user who exists. *)
Lemma syncSubscription_found db uid (revenuecatId : string) (isPro : bool) u :
  findUser db uid = Some u ->
  let tier := if isPro then "pro" else "free" in
  syncSubscription db uid (Some (revenuecatId, isPro))
  = (mkDb (Puzzles db) (UserProgresses db)
          (fst (findByIdAndUpdateTier (Users db) uid tier)),
     TierJson (Some "Subscription synced") (Some tier)).
Proof.
  intros Hu tier. unfold syncSubscription. fold tier.
  destruct (findByIdAndUpdateTier_found (Users db) uid tier u Hu) as [Hs _].
  destruct (findByIdAndUpdateTier (Users db) uid tier) as [users found].
  simpl in Hs. rewrite Hs. reflexivity.
Qed.

(** X12.  A sync for a user who exists stores "pro" or "free" according
    to [isPro], answers with that tier, and the status route reads the same
    tier back; the tier of every other user, the catalog and the progress
    collection are untouched.  A sync for a user who does not exist answers
    404 and changes nothing. *)
Theorem sync_then_status db uid (revenuecatId : string) (isPro : bool) :
  let out := syncSubscription db uid (Some (revenuecatId, isPro)) in
  let tier := if isPro then "pro" else "free" in
  (findUser db uid = None -> out = (db, TierErr 404 "User not found"))
  /\ (forall u, findUser db uid = Some u ->
        snd out = TierJson (Some "Subscription synced") (Some tier)
        /\ subscriptionStatus (fst out) uid = TierJson None (Some tier)
        /\ (forall uid', uid' <> uid ->
                         subscriptionStatus (fst out) uid'
                         = subscriptionStatus db uid')
        /\ Puzzles (fst out) = Puzzles db
        /\ UserProgresses (fst out) = UserProgresses db).
Proof.
  intros out tier. subst out. split.
  - intros Hn. unfold syncSubscription.
    rewrite (findByIdAndUpdateTier_missing _ _ _ Hn). reflexivity.
  - intros u Hu. rewrite (syncSubscription_found db uid revenuecatId isPro u Hu).
    fold tier. simpl. split; [reflexivity|].
    destruct (findByIdAndUpdateTier_found (Users db) uid tier u Hu) as [_ Hf].
    split; [|split; [|split; reflexivity]].
    + unfold subscriptionStatus, findUser. simpl. rewrite Hf. simpl.
      subst tier. destruct isPro; reflexivity.
    + intros uid' Hne. unfold subscriptionStatus, findUser. simpl.
      rewrite findByIdAndUpdateTier_other by exact Hne. reflexivity.
Qed.

Lemma sync_then_status_witness :
  findUser Example.db0 "u1" = Some Example.freeUser
  /\ subscriptionStatus Example.db0 "u1" = TierJson None (Some "free")
  /\ subscriptionStatus
       (fst (syncSubscription Example.db0 "u1" (Some ("rc-1", true)))) "u1"
     = TierJson None (Some "pro").
Proof.
  do 2 (split; [reflexivity|]).
  destruct (sync_then_status Example.db0 "u1" "rc-1" true) as [_ H].
  destruct (H Example.freeUser eq_refl) as (_ & Hstatus & _).
  exact Hstatus.
Defined.

(** X13.  The quota follows the synced tier.  After a sync with [isPro]
    set, the fetch never answers "daily_limit" to that user: on a level that
    is found and not locked it returns the level with the user's progress,
    however many records they created today.  After a sync with [isPro]
    unset the user is a free user again.  And whenever the fetch does
    answer "daily_limit", the user's tier reads as "free": the user document
    is missing, or its tier is absent, empty or "free". *)
Theorem quota_follows_synced_tier db uid (revenuecatId : string) u :
  findUser db uid = Some u ->
  (forall now id,
     let db' := fst (syncSubscription db uid (Some (revenuecatId, true))) in
     getPuzzle db' now uid id <> Err 403 "daily_limit"
     /\ forall puzzle,
          findActivePuzzle db id = Some puzzle ->
          levelLocked db uid puzzle = false ->
          getPuzzle db' now uid id
          = Json (PuzzleBody
                    (view_of_puzzle puzzle)
                    (option_map view_of_progress
                       (findProgress (UserProgresses db) uid (pz_id puzzle)))))
  /\ tierOrFree
       (findUser (fst (syncSubscription db uid (Some (revenuecatId, false))))
                 uid) = "free"
  /\ (forall now id,
        getPuzzle db now uid id = Err 403 "daily_limit" ->
        subscriptionTier u = None \/ subscriptionTier u = Some ""
        \/ subscriptionTier u = Some "free").
Proof.
  intros Hu. split; [|split].
  - intros now id db'. subst db'.
    rewrite (syncSubscription_found db uid revenuecatId true u Hu). simpl.
    destruct (findByIdAndUpdateTier_found (Users db) uid "pro" u Hu) as [_ Hf].
    set (db' := mkDb (Puzzles db) (UserProgresses db)
                     (fst (findByIdAndUpdateTier (Users db) uid "pro"))).
    assert (Ht : tierOrFree (findUser db' uid) = "pro").
    { unfold findUser, db'. simpl. rewrite Hf. reflexivity. }
    split.
    + intros H. apply getPuzzle_daily_limit in H as (_ & _ & _ & Hfree & _).
      rewrite Ht in Hfree. discriminate.
    + intros puzzle Hfound Hl.
      assert (Hfound' : findActivePuzzle db' id = Some puzzle) by exact Hfound.
      assert (Hl' : levelLocked db' uid puzzle = false) by exact Hl.
      rewrite (getPuzzle_unlocked _ _ _ _ _ Hfound' Hl'). cbv zeta.
      rewrite Ht. reflexivity.
  - rewrite (syncSubscription_found db uid revenuecatId false u Hu). simpl.
    destruct (findByIdAndUpdateTier_found (Users db) uid "free" u Hu) as [_ Hf].
    unfold findUser. simpl. rewrite Hf. reflexivity.
  - intros now id H. apply getPuzzle_daily_limit in H as (_ & _ & _ & Hfree & _).
    rewrite Hu in Hfree. simpl in Hfree.
    destruct (subscriptionTier u) as [s|]; [|left; reflexivity].
    destruct (String.eqb_spec s ""); [right; left; congruence|].
    right; right. congruence.
Qed.

Lemma quota_follows_synced_tier_witness :
  findUser Example.dbDoneA "u1" = Some Example.freeUser
  /\ getPuzzle Example.dbDoneA (Example.noon + 5) "u1" "b2"
     = Err 403 "daily_limit"
  /\ getPuzzle
       (fst (syncSubscription Example.dbDoneA "u1" (Some ("rc-1", true))))
       (Example.noon + 5) "u1" "b2"
     <> Err 403 "daily_limit".
Proof.
  do 2 (split; [reflexivity|]).
  destruct (quota_follows_synced_tier Example.dbDoneA "u1" "rc-1"
              Example.freeUser eq_refl) as [Hpro _].
  apply (Hpro (Example.noon + 5) "b2").
Defined.

End Subscription.

(** ** Splitting strings: file extensions, object keys and bearer tokens *)

Section Strings.

Implicit Types (sep c : ascii) (s a b : string).

Lemma splitOn_nonempty sep s : splitOn sep s <> [].
Proof.
  destruct s as [|c s]; simpl; [discriminate|].
  destruct (Ascii.eqb c sep); [discriminate|].
  destruct (splitOn sep s); discriminate.
Qed.

(** Splitting at an occurrence of the separator splits both sides. *)
Lemma splitOn_app sep a b :
  splitOn sep (a ++ String sep b) = splitOn sep a ++ splitOn sep b.
Proof.
  induction a as [|c a IH]; simpl.
  - rewrite Ascii.eqb_refl. reflexivity.
  - destruct (Ascii.eqb c sep); [rewrite IH; reflexivity|].
    rewrite IH. pose proof (splitOn_nonempty sep a) as Hne.
    destruct (splitOn sep a); [contradiction | reflexivity].
Qed.

Lemma splitOn_free sep s : freeOf sep s = true -> splitOn sep s = [s].
Proof.
  induction s as [|c s IH]; simpl; [reflexivity|].
  intros H. apply andb_true_iff in H as [Hc Hs].
  apply negb_true_iff in Hc. rewrite Hc, (IH Hs). reflexivity.
Qed.

Lemma splitOn_pieces_free sep s :
  List.Forall (fun piece => freeOf sep piece = true) (splitOn sep s).
Proof.
  induction s as [|c s IH]; simpl.
  - repeat constructor.
  - destruct (Ascii.eqb c sep) eqn:E; [constructor; [reflexivity | exact IH]|].
    destruct (splitOn sep s) as [|piece pieces].
    + repeat constructor. simpl. rewrite E. reflexivity.
    + inversion IH as [|? ? Hp Hps]; subst. constructor; [|exact Hps].
      simpl. rewrite E, Hp. reflexivity.
Qed.

Lemma last_app_nonempty {A : Type} (l1 l2 : list A) (d : A) :
  l2 <> [] -> List.last (l1 ++ l2) d = List.last l2 d.
Proof.
  intros Hne. induction l1 as [|x l1 IH]; simpl; [reflexivity|].
  destruct (l1 ++ l2) eqn:E; [|exact IH].
  apply app_eq_nil in E as [_ E]. contradiction.
Qed.

Lemma last_In_nonempty {A : Type} (l : list A) (d : A) :
  l <> [] -> In (List.last l d) l.
Proof.
  induction l as [|x l IH]; [contradiction|]. intros _. simpl.
  destruct l as [|y l]; [left; reflexivity|].
  right. apply IH. discriminate.
Qed.

(** The piece after the last separator. *)
Lemma last_piece_after sep a b :
  freeOf sep b = true ->
  List.last (splitOn sep (a ++ String sep b)) EmptyString = b.
Proof.
  intros Hb. rewrite splitOn_app, last_app_nonempty by apply splitOn_nonempty.
  rewrite (splitOn_free sep b Hb). reflexivity.
Qed.

Lemma list_ascii_of_string_app a b :
  list_ascii_of_string (a ++ b)
  = (list_ascii_of_string a ++ list_ascii_of_string b)%list.
Proof. induction a as [|c a IH]; simpl; [reflexivity | rewrite IH; reflexivity]. Qed.

Lemma append_cancel_r a b s : (a ++ s)%string = (b ++ s)%string -> a = b.
Proof.
  intros H. apply (f_equal list_ascii_of_string) in H.
  rewrite !list_ascii_of_string_app in H. apply app_inv_tail in H.
  rewrite <- (string_of_list_ascii_of_string a),
          <- (string_of_list_ascii_of_string b), H. reflexivity.
Qed.

Lemma append_cancel_l s a b : (s ++ a)%string = (s ++ b)%string -> a = b.
Proof.
  induction s as [|c s IH]; simpl; [auto|]. intros [= H]. auto.
Qed.

(** X14.  The extension under which an upload is stored is the part of
    the original file name after its last dot.  It is never empty and holds
    no dot; a name ending in a dot, or empty, gets the fallback; and a name
    without any dot is taken whole as its own extension. *)
Theorem file_extension_cases (fallback name : string) :
  (freeOf "." fallback = true -> fallback <> EmptyString ->
   fileExtension fallback name <> EmptyString
   /\ freeOf "." (fileExtension fallback name) = true)
  /\ (forall base ext,
        name = (base ++ String "." ext)%string ->
        freeOf "." ext = true ->
        fileExtension fallback name
        = if String.eqb ext "" then fallback else ext)
  /\ (freeOf "." name = true ->
      fileExtension fallback name
      = if String.eqb name "" then fallback else name).
Proof.
  split; [|split].
  - intros Hf Hne. unfold fileExtension. cbv zeta.
    destruct (String.eqb_spec (List.last (splitOn "." name) EmptyString) "")
      as [E|E]; [auto|].
    split; [exact E|].
    pose proof (splitOn_pieces_free "." name) as Hall.
    rewrite List.Forall_forall in Hall. apply Hall.
    apply last_In_nonempty, splitOn_nonempty.
  - intros base ext -> Hext. unfold fileExtension.
    rewrite (last_piece_after "." base ext Hext). reflexivity.
  - intros Hfree. unfold fileExtension.
    rewrite (splitOn_free "." name Hfree). reflexivity.
Qed.

Lemma file_extension_cases_witness :
  freeOf "." "jpg" = true
  /\ fileExtension "jpg" "holiday.photo.PNG" = "PNG"
  /\ fileExtension "jpg" "README" = "README"
  /\ fileExtension "jpg" "scan." = "jpg".
Proof.
  destruct (file_extension_cases "jpg" "holiday.photo.PNG") as (_ & Hdot & _).
  destruct (file_extension_cases "jpg" "README") as (_ & _ & Hnone).
  destruct (file_extension_cases "jpg" "scan.") as (_ & Hend & _).
  split; [reflexivity|]. split; [|split].
  - apply (Hdot "holiday.photo" "PNG"); reflexivity.
  - apply Hnone. reflexivity.
  - apply (Hend "scan" ""); reflexivity.
Defined.

Lemma fileExtension_free (fallback name : string) :
  freeOf "." fallback = true ->
  freeOf "." (fileExtension fallback name) = true.
Proof.
  intros Hf. unfold fileExtension. cbv zeta.
  destruct (String.eqb (List.last (splitOn "." name) EmptyString) "");
    [exact Hf|].
  pose proof (splitOn_pieces_free "." name) as Hall.
  rewrite List.Forall_forall in Hall. apply Hall.
  apply last_In_nonempty, splitOn_nonempty.
Qed.

(** A key of the shape folder, identifier, dot, extension gives back its
    identifier and its extension. *)
Lemma object_key_inj (folder u1 u2 e1 e2 : string) :
  freeOf "." e1 = true -> freeOf "." e2 = true ->
  (folder ++ u1 ++ String "." e1)%string = (folder ++ u2 ++ String "." e2)%string ->
  u1 = u2 /\ e1 = e2.
Proof.
  intros H1 H2 H. apply append_cancel_l in H.
  assert (He : e1 = e2).
  { rewrite <- (last_piece_after "." u1 e1 H1),
            <- (last_piece_after "." u2 e2 H2), H. reflexivity. }
  subst e2. split; [|reflexivity]. apply append_cancel_r in H. exact H.
Qed.

(** X15.  An upload stores the object under the key it returns, and the
    URL it returns is the bucket URL, a slash, and that key.  Two uploads
    with different UUIDs get different keys, whatever the file names, so
    with fresh UUIDs no upload overwrites another; and an image never shares
    its key with an audio file. *)
Theorem upload_keys_do_not_collide (bucket bucketUrl u1 u2 : string)
    (f1 f2 : MulterFile) :
  put_Key (fst (uploadImage bucket bucketUrl u1 f1))
  = up_key (snd (uploadImage bucket bucketUrl u1 f1))
  /\ up_url (snd (uploadImage bucket bucketUrl u1 f1))
     = (bucketUrl ++ "/" ++ up_key (snd (uploadImage bucket bucketUrl u1 f1)))%string
  /\ (up_key (snd (uploadImage bucket bucketUrl u1 f1))
      = up_key (snd (uploadImage bucket bucketUrl u2 f2)) -> u1 = u2)
  /\ (up_key (snd (uploadAudio bucket bucketUrl u1 f1))
      = up_key (snd (uploadAudio bucket bucketUrl u2 f2)) -> u1 = u2)
  /\ up_key (snd (uploadImage bucket bucketUrl u1 f1))
     <> up_key (snd (uploadAudio bucket bucketUrl u2 f2)).
Proof.
  split; [reflexivity|]. split; [reflexivity|]. split; [|split].
  - unfold uploadImage. cbv zeta. simpl up_key. intros H.
    apply (object_key_inj "puzzles/" u1 u2 _ _
             (fileExtension_free "jpg" _ eq_refl)
             (fileExtension_free "jpg" _ eq_refl)) in H.
    tauto.
  - unfold uploadAudio. cbv zeta. simpl up_key. intros H.
    apply (object_key_inj "audiobooks/" u1 u2 _ _
             (fileExtension_free "mp3" _ eq_refl)
             (fileExtension_free "mp3" _ eq_refl)) in H.
    tauto.
  - unfold uploadImage, uploadAudio. simpl. discriminate.
Qed.

End Strings.

(** ** Authentication *)

Section AuthenticateProperties.

Variable verify : string -> JwtResult.

Implicit Types (accounts : list IAccount) (user : IAccount) (t r h : string).

Lemma prefix_empty s : String.prefix "" s = true.
Proof. destruct s; reflexivity. Qed.

Lemma prefix_Bearer r : String.prefix "Bearer " ("Bearer " ++ r) = true.
Proof. simpl. apply prefix_empty. Qed.

(** The pieces of a header that starts with the scheme. *)
Lemma splitOn_Bearer r :
  splitOn " " ("Bearer " ++ r) = "Bearer" :: splitOn " " r.
Proof. apply (splitOn_app " " "Bearer" r). Qed.

Lemma authenticate_Bearer accounts r :
  authenticate verify accounts (Some ("Bearer " ++ r)%string)
  = match splitOn " " r with
    | token :: _ =>
        if String.eqb token "" then Denied 401 "Invalid token format"
        else verifiedAccount verify accounts token
    | [] => Denied 401 "Invalid token format"
    end.
Proof.
  unfold authenticate. rewrite prefix_Bearer, splitOn_Bearer. simpl.
  destruct (splitOn " " r); reflexivity.
Qed.

(** X16.  How the middleware reads the [Authorization] header.  Without
    a header, or with one that does not start with "Bearer " (the scheme in
    this spelling and one space), it answers 401 "No token provided".  With
    nothing after the scheme, or a second space right after it, it answers
    401 "Invalid token format".  Otherwise the token is what follows the
    scheme up to the next space: anything after that space is ignored, and
    the outcome is that of verifying this token. *)
Theorem bearer_token_parsing accounts :
  authenticate verify accounts None = Denied 401 "No token provided"
  /\ (forall h, String.prefix "Bearer " h = false ->
                authenticate verify accounts (Some h)
                = Denied 401 "No token provided")
  /\ authenticate verify accounts (Some "Bearer ")
     = Denied 401 "Invalid token format"
  /\ (forall r, authenticate verify accounts (Some ("Bearer  " ++ r)%string)
                = Denied 401 "Invalid token format")
  /\ (forall t, t <> EmptyString -> freeOf " " t = true ->
        authenticate verify accounts (Some ("Bearer " ++ t)%string)
        = verifiedAccount verify accounts t
        /\ forall r,
             authenticate verify accounts
               (Some ("Bearer " ++ t ++ String " " r)%string)
             = verifiedAccount verify accounts t).
Proof.
  split; [reflexivity|]. split; [|split; [reflexivity|split]].
  - intros h Hp. unfold authenticate. rewrite Hp, orb_true_r. reflexivity.
  - intros r. apply (authenticate_Bearer accounts (String " " r)).
  - intros t Hne Hfree.
    assert (Ht : String.eqb t "" = false) by (apply String.eqb_neq; exact Hne).
    split.
    + rewrite authenticate_Bearer, (splitOn_free " " t Hfree), Ht. reflexivity.
    + intros r. rewrite authenticate_Bearer, splitOn_app.
      rewrite (splitOn_free " " t Hfree). simpl. rewrite Ht. reflexivity.
Qed.

(** What a call of [next()] tells about the request. *)
Lemma authenticate_Next accounts (authorization : option string) user userId :
  authenticate verify accounts authorization = Next user userId ->
  In user accounts
  /\ acc_isActive user = true
  /\ user_id (acc_user user) = userId
  /\ findAccount accounts userId = Some user
  /\ exists h token email role,
       authorization = Some h
       /\ String.prefix "Bearer " h = true
       /\ verify token = Decoded userId email role.
Proof.
  unfold authenticate.
  destruct authorization as [h|]; [|discriminate].
  destruct (String.eqb h "" || negb (String.prefix "Bearer " h)) eqn:Eh;
    [discriminate|].
  apply orb_false_iff in Eh as [_ Hp]. apply negb_false_iff in Hp.
  destruct (List.nth_error (splitOn " " h) 1) as [token|]; [|discriminate].
  destruct (String.eqb token ""); [discriminate|].
  unfold verifiedAccount.
  destruct (verify token) as [uid email role| | |] eqn:Ev; try discriminate.
  destruct (findAccount accounts uid) as [a|] eqn:Ea; [|discriminate].
  destruct (acc_isActive a) eqn:Eact; simpl; [|discriminate].
  intros [= <- <-].
  pose proof Ea as Hfind. unfold findAccount in Ea.
  apply find_some in Ea as [Hin Hid]. apply String.eqb_eq in Hid.
  repeat (split; [assumption|]). exists h, token, email, role. auto.
Qed.


(** What the handler does once the request comes from an active
    administrator with a boolean in the body. *)
Lemma saveIsActive_other accounts (id id' : ObjectId) (b : bool) :
  id' <> id ->
  findAccount (saveIsActive accounts id b) id' = findAccount accounts id'.
Proof.
  intros Hne. unfold findAccount.
  induction accounts as [|a accounts IH]; simpl; [reflexivity|].
  destruct (String.eqb_spec (user_id (acc_user a)) id) as [Ha|Ha]; simpl.
  - destruct (String.eqb_spec (user_id (acc_user a)) id'); [congruence|].
    reflexivity.
  - rewrite IH. reflexivity.
Qed.

Lemma saveIsActive_same accounts (id : ObjectId) (b : bool) target :
  findAccount accounts id = Some target ->
  findAccount (saveIsActive accounts id b) id
  = Some (mkAccount (acc_user target) (acc_email target) (acc_role target) b).
Proof.
  unfold findAccount. induction accounts as [|a accounts IH]; simpl;
    [discriminate|].
  destruct (String.eqb (user_id (acc_user a)) id) eqn:E; simpl.
  - intros [= ->]. rewrite E. reflexivity.
  - rewrite E. exact IH.
Qed.

(** X18.  The activation route changes an account only for a requester
    whom the middleware let through and who is an administrator, with a
    boolean in the body and a target that exists and is not the requester.
    It then sets the target's [isActive] to that boolean, whatever the role
    of the target, and touches no other account.  In every other case the
    accounts stay as they are; in particular no request changes the account
    of its own requester, so an administrator cannot deactivate themselves. *)
Theorem activation_spares_the_requester accounts
    (authorization : option string) (id : ObjectId) (isActive : option bool) :
  let out := activateRoute verify accounts authorization id isActive in
  (forall message target',
     snd out = ActivateJson message target' ->
     exists user userId b target,
       authenticate verify accounts authorization = Next user userId
       /\ acc_role user = "admin" /\ acc_isActive user = true
       /\ isActive = Some b
       /\ findAccount accounts id = Some target
       /\ id <> userId
       /\ target' = mkAccount (acc_user target) (acc_email target)
                              (acc_role target) b
       /\ findAccount (fst out) id = Some target'
       /\ forall id', id' <> id ->
                      findAccount (fst out) id' = findAccount accounts id')
  /\ (forall status error, snd out = ActivateErr status error ->
                           fst out = accounts)
  /\ (forall user userId,
        authenticate verify accounts authorization = Next user userId ->
        findAccount (fst out) userId = Some user).
Proof.
  intros out. subst out. unfold activateRoute.
  destruct (authenticate verify accounts authorization) as [user userId|st er]
    eqn:Ea.
  2:{ simpl. split; [discriminate|]. split; [reflexivity | discriminate]. }
  destruct (authenticate_Next accounts authorization user userId Ea)
    as (Hin & Hact & Hid & Hfind & _).
  unfold activateHandler. rewrite Hact.
  destruct (String.eqb_spec (acc_role user) "admin") as [Hrole|Hrole]; simpl.
  2:{ split; [discriminate|]. split; [reflexivity|].
      intros u uid [= <- <-]. exact Hfind. }
  destruct isActive as [b|]; simpl.
  2:{ split; [discriminate|]. split; [reflexivity|].
      intros u uid [= <- <-]. exact Hfind. }
  destruct (findAccount accounts id) as [target|] eqn:Et; simpl.
  2:{ split; [discriminate|]. split; [reflexivity|].
      intros u uid [= <- <-]. exact Hfind. }
  assert (Htid : user_id (acc_user target) = id).
  { unfold findAccount in Et. apply find_some in Et as [_ H].
    apply String.eqb_eq in H. exact H. }
  rewrite Htid, Hid.
  destruct (String.eqb_spec id userId) as [Hsame|Hdiff]; simpl.
  { split; [discriminate|]. split; [reflexivity|].
    intros u uid [= <- <-]. exact Hfind. }
  split; [|split; [discriminate|]].
  - intros message target' [= _ <-].
    exists user, userId, b, target.
    repeat (split; [reflexivity || assumption|]).
    split; [apply saveIsActive_same; exact Et|].
    intros id' Hne. apply saveIsActive_other. exact Hne.
  - intros u uid [= <- <-]. rewrite saveIsActive_other by congruence.
    exact Hfind.
Qed.

End AuthenticateProperties.

Lemma bearer_token_parsing_witness :
  "t-ad1" <> EmptyString
  /\ freeOf " " "t-ad1" = true
  /\ authenticate AuthExample.verify AuthExample.accounts
                  (Some "Bearer t-ad1 and more")
     = Next AuthExample.root "ad1".
Proof.
  assert (Hne : "t-ad1" <> EmptyString) by discriminate.
  split; [exact Hne|]. split; [reflexivity|].
  destruct (bearer_token_parsing AuthExample.verify AuthExample.accounts)
    as (_ & _ & _ & _ & H).
  destruct (H "t-ad1" Hne eq_refl) as [_ Htail].
  change (Some "Bearer t-ad1 and more")
    with (Some ("Bearer " ++ "t-ad1" ++ String " " "and more")%string).
  rewrite Htail. reflexivity.
Defined.


Lemma activation_spares_the_requester_witness :
  findAccount
    (fst (activateRoute AuthExample.verify AuthExample.accounts
                        (Some "Bearer t-ad1") "ad1" (Some false))) "ad1"
  = Some AuthExample.root
  /\ option_map acc_isActive
       (findAccount
          (fst (activateRoute AuthExample.verify AuthExample.accounts
                              (Some "Bearer t-ad1") "ad2" (Some true))) "ad2")
     = Some true.
Proof.
  split.
  - pose proof (activation_spares_the_requester AuthExample.verify
                  AuthExample.accounts (Some "Bearer t-ad1") "ad1" (Some false))
      as H.
    cbv zeta in H. destruct H as (_ & _ & Hself).
    apply Hself. reflexivity.
  - pose proof (activation_spares_the_requester AuthExample.verify
                  AuthExample.accounts (Some "Bearer t-ad1") "ad2" (Some true))
      as H.
    cbv zeta in H. destruct H as (Hdone & _ & _).
    destruct (Hdone "Account activated successfully"
                    (mkAccount (mkUser "ad2" None) "new@example.org" "admin" true)
                    eq_refl)
      as (user & userId & b & target & _ & _ & _ & _ & _ & _ & _ & Hf & _).
    rewrite Hf. reflexivity.
Defined.

(** ** Invariants of the store and resets *)

Section StoreInvariants.

Implicit Types (db : Db) (uid pid : ObjectId) (coll : list IUserProgress).

Lemma syncSubscription_store db uid (validation : option (string * bool)) :
  Puzzles (fst (syncSubscription db uid validation)) = Puzzles db
  /\ UserProgresses (fst (syncSubscription db uid validation))
     = UserProgresses db.
Proof.
  unfold syncSubscription. destruct validation as [[rc isPro]|]; [|auto].
  destruct (findByIdAndUpdateTier _ _ _) as [users [u|]]; auto.
Qed.

Lemma perform_invariants db (a : Action) :
  uniqueIndex (UserProgresses db) /\ refersToCatalog db ->
  uniqueIndex (UserProgresses (perform db a)) /\ refersToCatalog (perform db a).
Proof.
  intros [Hu Href]. destruct a as [r|id|uid validation]; simpl.
  - split; [apply handle_unique | apply handle_refersToCatalog]; assumption.
  - split; [apply adminDeletePuzzle_unique
           | apply adminDeletePuzzle_refersToCatalog]; assumption.
  - destruct (syncSubscription_store db uid validation) as [Hp Hc].
    split; [rewrite Hc; exact Hu|].
    intros p Hp'. rewrite Hc in Hp'. unfold findPuzzleById. rewrite Hp.
    apply Href. exact Hp'.
Qed.

(** X19.  Along every sequence of player requests, deletions of levels
    and subscription syncs, in any order, the progress collection keeps at
    most one record per user and level, and every record refers to a level
    that exists.  Both hold in particular after any such sequence that
    starts with an empty progress collection. *)
Theorem store_invariants_along_every_sequence db (actions : list Action) :
  uniqueIndex (UserProgresses db) ->
  refersToCatalog db ->
  uniqueIndex (UserProgresses (performAll db actions))
  /\ refersToCatalog (performAll db actions).
Proof.
  intros Hu Href. unfold performAll.
  assert (H : uniqueIndex (UserProgresses db) /\ refersToCatalog db) by auto.
  clear Hu Href. revert db H.
  induction actions as [|a actions IH]; intros db H; simpl; [exact H|].
  apply IH, perform_invariants, H.
Qed.

Lemma store_invariants_along_every_sequence_witness :
  uniqueIndex (UserProgresses Example.db0)
  /\ refersToCatalog Example.db0
  /\ uniqueIndex
       (UserProgresses
          (performAll Example.db0
             [ByPlayer (PutProgress Example.noon Example.noon "r1" "u1" "a1"
                                    (Some Example.fourPieces));
              SyncSubscription "u1" (Some ("rc-1", true));
              ByPlayer (PutProgress (Example.noon + 5) (Example.noon + 5) "r2"
                                    "u1" "b2" (Some ["p0"]));
              AdminDelete "a1"])).
Proof.
  assert (Hu : uniqueIndex (UserProgresses Example.db0)) by apply NoDup_nil_2.
  assert (Href : refersToCatalog Example.db0) by (intros p []).
  split; [exact Hu|]. split; [exact Href|].
  apply (store_invariants_along_every_sequence Example.db0 _ Hu Href).
Defined.

Lemma findOneAndDelete_missing coll uid pid :
  findProgress coll uid pid = None -> findOneAndDelete coll uid pid = coll.
Proof.
  unfold findProgress. induction coll as [|q coll IH]; simpl; [reflexivity|].
  destruct (matchesKey uid pid q); [discriminate|].
  intros H. rewrite (IH H). reflexivity.
Qed.

Lemma withProgresses_same db : withProgresses db (UserProgresses db) = db.
Proof. destruct db. reflexivity. Qed.

(** X20.  A reset asks neither for the level nor for a record: when the
    user has no record on the level, whether or not the level exists, it
    answers 200 and leaves the store as it is.  Under the unique index a
    second reset in a row therefore changes nothing. *)
Theorem reset_of_nothing_changes_nothing db uid pid :
  (findProgress (UserProgresses db) uid pid = None ->
   deleteProgress db uid pid
   = (db, Json (MessageBody "Progress reset successfully")))
  /\ (uniqueIndex (UserProgresses db) ->
      deleteProgress (fst (deleteProgress db uid pid)) uid pid
      = (fst (deleteProgress db uid pid),
         Json (MessageBody "Progress reset successfully"))).
Proof.
  assert (H : forall d, findProgress (UserProgresses d) uid pid = None ->
                        deleteProgress d uid pid
                        = (d, Json (MessageBody "Progress reset successfully"))).
  { intros d Hn. unfold deleteProgress.
    rewrite (findOneAndDelete_missing _ _ _ Hn), withProgresses_same.
    reflexivity. }
  split; [apply H|]. intros Hu. apply H. simpl.
  apply findOneAndDelete_lookup. exact Hu.
Qed.

Lemma reset_of_nothing_changes_nothing_witness :
  findProgress (UserProgresses Example.dbDoneA) "u1" "nowhere" = None
  /\ deleteProgress Example.dbDoneA "u1" "nowhere"
     = (Example.dbDoneA, Json (MessageBody "Progress reset successfully")).
Proof.
  split; [reflexivity|].
  destruct (reset_of_nothing_changes_nothing Example.dbDoneA "u1" "nowhere")
    as [Hmissing _].
  apply Hmissing. reflexivity.
Defined.

End StoreInvariants.

(** ** What the listing tells a user *)

Section ListingReading.

Implicit Types (db : Db) (uid pid : ObjectId) (puzzle next pz : IPuzzle)
  (p : IUserProgress).

Lemma shownCompleted_hasCompleted db uid puzzle :
  uniqueIndex (UserProgresses db) ->
  (shownCompleted db uid puzzle = true <-> hasCompleted db uid puzzle).
Proof.
  intros Hu. unfold shownCompleted, hasCompleted.
  destruct (findProgress (UserProgresses db) uid (pz_id puzzle)) as [p|] eqn:E.
  - apply findProgress_Some in E as (Hin & Hpu & Hpp). split.
    + intros Hc. exists p. auto.
    + intros (q & Hq & Hqu & Hqp & Hc).
      assert (q = p) as <-; [|exact Hc].
      apply (uniqueIndex_inj _ _ _ Hu Hq Hin). unfold keyOf. congruence.
  - split; [discriminate|]. intros (q & Hq & Hqu & Hqp & _).
    apply findProgress_None in E. destruct E.
    apply in_map_iff. exists q. split; [|exact Hq]. unfold keyOf. congruence.
Qed.

(** X21.  Within one listing, under the unique index and with identifiers
    and orders unique among the active levels: the entry of a level is the
    one computed from the store, and a level that has an active level just
    below it is flagged unlocked exactly when the entry of that level is
    flagged completed. *)
Theorem listing_unlocks_after_completed_entry db uid puzzle next :
  uniqueIndex (UserProgresses db) ->
  uniqueOn pz_id (List.filter isActive (Puzzles db)) ->
  uniqueOn levelOrder (List.filter isActive (Puzzles db)) ->
  1 < levelOrder next ->
  previousPuzzle db next = Some puzzle ->
  List.map (fun s => (st_puzzle s, st_isUnlocked s, st_isCompleted s))
           (puzzlesWithStatus db uid)
  = List.map (fun pz => (view_of_puzzle pz, listedUnlocked db uid pz,
                         shownCompleted db uid pz))
             (activePuzzles db)
  /\ In puzzle (activePuzzles db)
  /\ (listedUnlocked db uid next = true <-> shownCompleted db uid puzzle = true).
Proof.
  intros Hu Uid Uord Hgt Hprev. split; [|split].
  - unfold puzzlesWithStatus. rewrite map_map. apply map_ext. intros pz.
    simpl. rewrite (progressMap_lookup _ _ _ Hu). reflexivity.
  - apply previousPuzzle_Some in Hprev as (Hin & _ & Hact).
    apply activePuzzles_In. auto.
  - rewrite (listedUnlocked_predecessor db uid next puzzle Uid Uord Hgt Hprev).
    symmetry. apply shownCompleted_hasCompleted. exact Hu.
Qed.

Lemma listing_unlocks_after_completed_entry_witness :
  uniqueIndex (UserProgresses Example.dbDoneA)
  /\ previousPuzzle Example.dbDoneA Example.levelB = Some Example.levelA
  /\ shownCompleted Example.dbDoneA "u1" Example.levelA = true
  /\ listedUnlocked Example.dbDoneA "u1" Example.levelB = true.
Proof.
  assert (Hu : uniqueIndex (UserProgresses Example.dbDoneA)).
  { unfold uniqueIndex. simpl. apply NoDup_singleton. }
  split; [exact Hu|]. do 2 (split; [reflexivity|]).
  destruct (listing_unlocks_after_completed_entry Example.dbDoneA "u1"
              Example.levelA Example.levelB Hu uniqueOn_example_ids
              uniqueOn_example_orders) as (_ & _ & Hiff).
  - vm_compute. reflexivity.
  - reflexivity.
  - apply Hiff. reflexivity.
Defined.

(** X22.  For a user without any progress record, the listing flags as
    unlocked exactly the levels of order 1 and shows every level as not
    completed and without progress, and the fetch refuses as locked exactly
    the levels of order above 1 that have an active level just below. *)
Theorem new_user_sees_only_first_level_open db uid :
  progressOfUser db uid = [] ->
  (forall puzzle, listedUnlocked db uid puzzle = (levelOrder puzzle =? 1))
  /\ (forall s, In s (puzzlesWithStatus db uid) ->
                st_isCompleted s = false /\ st_progress s = None)
  /\ (forall puzzle, levelLocked db uid puzzle = true
                     <-> 1 < levelOrder puzzle
                         /\ previousPuzzle db puzzle <> None).
Proof.
  intros Hnone. split; [|split].
  - intros puzzle. unfold listedUnlocked, isUnlocked, completedLevels.
    rewrite Hnone. simpl.
    rewrite bool_decide_eq_false_2 by apply not_elem_of_empty.
    apply orb_false_r.
  - intros s Hs. unfold puzzlesWithStatus in Hs. rewrite Hnone in Hs.
    apply in_map_iff in Hs as (pz & <- & _). simpl.
    unfold progressMap. simpl. rewrite lookup_empty. auto.
  - intros puzzle. rewrite levelLocked_true. split.
    + intros (Hgt & previous & Hprev & _). split; [exact Hgt | congruence].
    + intros (Hgt & Hprev).
      destruct (previousPuzzle db puzzle) as [previous|]; [|contradiction].
      split; [exact Hgt|]. exists previous. split; [reflexivity|].
      intros (q & Hq & Hqu & _).
      assert (Hin : In q (progressOfUser db uid)).
      { apply filter_In. split; [exact Hq | apply String.eqb_eq; exact Hqu]. }
      rewrite Hnone in Hin. destruct Hin.
Qed.

Lemma new_user_sees_only_first_level_open_witness :
  progressOfUser Example.dbDoneA "u2" = []
  /\ List.map st_isUnlocked (puzzlesWithStatus Example.dbDoneA "u2")
     = [true; false; false].
Proof.
  split; [reflexivity|].
  destruct (new_user_sees_only_first_level_open Example.dbDoneA "u2" eq_refl)
    as (Hflag & _ & _).
  rewrite <- (map_map (fun s => (st_puzzle s, st_isUnlocked s)) snd).
  rewrite puzzlesWithStatus_flags, map_map. simpl.
  rewrite !Hflag. reflexivity.
Defined.

End ListingReading.
